(** * clio-nodejs-logger: the Logger class of [src/logger.js]

  A shallow embedding of the emission pipeline of the logger: the
  JavaScript values it handles, the [Logger] class with its constructor,
  its emit methods, [createChildLogger], [setSessionId] and the static
  [current], followed by models of the collaborating modules
  ([log-level-filter], [is-enabled], [serializer]) and the properties
  proved of them. *)

From Stdlib Require Import ZArith Ascii String List Bool Lia.
From stdpp Require Import base option list strings pretty.

Set Warnings "-register-all".

Open Scope string_scope.
Open Scope list_scope.

(** ** JavaScript values and the object store *)

Module JS.

(** Objects live in a store and are referred to by their address, so a
    value can be part of a cyclic structure. *)
Abbreviation loc := nat.

(** The values the logger handles.  Numbers are the integers below
    10^21 in absolute value, which print in decimal ([logLimit] is one); a
    [VRef] is a reference to a plain object. *)
Inductive value :=
| VUndefined
| VNull
| VBool (b : bool)
| VNum (n : Z)
| VStr (s : string)
| VRef (l : loc).

(** A plain object: its own enumerable properties in insertion order. *)
Abbreviation object := (list (string * value)).

(** The store: the object at address [l] is the [l]-th entry; a new object
    takes the next free address. *)
Abbreviation heap := (list object).

#[global] Instance value_eq_dec : EqDecision value.
Proof. solve_decision. Defined.

(** [ToBoolean]. *)
Definition truthy (v : value) : bool :=
  match v with
  | VUndefined | VNull => false
  | VBool b => b
  | VNum n => negb (n =? 0)%Z
  | VStr s => negb (String.eqb s "")
  | VRef _ => true
  end.

(** [a || b]. *)
Definition js_or (a b : value) : value := if truthy a then a else b.

(** [ToString], as a template literal applies it. *)
Definition to_string (v : value) : string :=
  match v with
  | VUndefined => "undefined"
  | VNull => "null"
  | VBool true => "true"
  | VBool false => "false"
  | VNum n => pretty n
  | VStr s => s
  | VRef _ => "[object Object]"
  end.

(** [v === true]. *)
Definition is_true (v : value) : bool :=
  match v with VBool true => true | _ => false end.

(** *** Properties *)

Fixpoint lookup_prop (k : string) (o : object) : option value :=
  match o with
  | [] => None
  | (k', v) :: r => if String.eqb k k' then Some v else lookup_prop k r
  end.

(** [o.k]: [undefined] when [o] has no property [k]. *)
Definition get (k : string) (o : object) : value :=
  default VUndefined (lookup_prop k o).

(** [o[k] = v]: an existing property keeps its place, a new one goes last. *)
Fixpoint set_prop (k : string) (v : value) (o : object) : object :=
  match o with
  | [] => [(k, v)]
  | (k', v') :: r =>
      if String.eqb k k' then (k', v) :: r else (k', v') :: set_prop k v r
  end.

(** The indexed characters of a string primitive, from index [i] on. *)
Fixpoint string_props (i : nat) (s : string) : object :=
  match s with
  | EmptyString => []
  | String c r => (pretty i, VStr (String c EmptyString)) :: string_props (S i) r
  end.

(** The own enumerable properties [Object.assign] copies from a source:
    none for [undefined], [null], booleans and numbers. *)
Definition own_props (h : heap) (v : value) : object :=
  match v with
  | VRef l => default [] (h !! l)
  | VStr s => string_props 0 s
  | _ => []
  end.

(** One source of [Object.assign(target, source)]. *)
Definition assign (target source : object) : object :=
  fold_left (fun t kv => set_prop (fst kv) (snd kv) t) source target.

(** [Object.assign(target, ...sources)] in the store [h], for a [target]
    that refers to an object: the properties of each source in turn are
    written to that object.  The call returns [target]; this is the store
    after it. *)
Definition object_assign (target : value) (sources : list value) (h : heap) : heap :=
  match target with
  | VRef l =>
      fold_left
        (fun h' source => <[l := assign (own_props h' target) (own_props h' source)]> h')
        sources h
  | _ => h
  end.

(** Allocation of a new object. *)
Definition alloc (o : object) (h : heap) : value * heap :=
  (VRef (length h), h ++ [o]).

(** [v] is a primitive or refers to an object of the store. *)
Definition in_heap (h : heap) (v : value) : bool :=
  match v with
  | VRef l => (l <? length h)%nat
  | _ => true
  end.


End JS.

Import JS.

(** ** The environment of the process and the severity table *)

(** The variables of [process.env] the logger reads; [None] is an unset
    variable. *)
Record Env := {
  LOG_LEVEL : option string;
  LOG_LIMIT : option string;
  LOG_NAMESPACES : option string;
  APP_NAME : option string;
  LOGS_PRETTY_PRINT : option string;
}.

(** [process.env.X]. *)
Definition getenv (x : option string) : value :=
  match x with
  | Some s => VStr s
  | None => VUndefined
  end.

(** The table exported by [./levels], of which [logger.js] reads the four
    entries [debug], [error], [warn] and [log].  The module is not part of
    the sources at hand: the table is a parameter of the development. *)
Module levels.
Record t := { debug : value; error : value; warn : value; log : value }.
End levels.

(** ** The Logger class *)

(** [{ context, name }]. *)
Record ContextData := { context : value; name : value }.

(** An instance of [Serializer]: what [new Serializer(contextData,
    namespace, logLimit)] was given. *)
Record Serializer := {
  ser_contextData : ContextData;
  ser_namespace : value;
  ser_logLimit : value;
}.

Definition new_Serializer (cd : ContextData) (namespace logLimit : value) : Serializer :=
  {| ser_contextData := cd; ser_namespace := namespace; ser_logLimit := logLimit |}.

(** The two functions the [format] field can hold. *)
Inductive formatter := prettyPrint_fn | stringify_fn.

(** The emit methods of the class, as values a field can hold. *)
Inductive method := info_method | warn_method | error_method | debug_method.

(** The fields [Object.assign(this, {...})] sets in the constructor. *)
Record Logger := {
  contextData : ContextData;
  format : formatter;
  log : method;
  logFormat : value;
  logLevel : value;
  logLimit : value;
  logPatterns : value;
  namespace : value;
  serializer : Serializer;
}.

(** A [Domain] of Node's [domain] module; [logger] is the property the
    application binds, [None] while it has never been assigned. *)
Record Domain := { logger : option Logger }.

(** What the code reads and writes outside the logger itself: the object
    store, the texts handed to [console.log], one entry for each call,
    [process.env], the clock and the stack of entered domains, whose top
    is [domain.active]. *)
Record World := {
  heap : JS.heap;
  console : list string;
  env : Env;
  now : string;
  domains : list Domain;
}.

Definition with_heap (h : JS.heap) (w : World) : World :=
  {| heap := h; console := console w; env := env w; now := now w; domains := domains w |}.

(** [console.log(line)]. *)
Definition console_log (line : string) (w : World) : World :=
  {| heap := heap w; console := console w ++ [line]; env := env w; now := now w;
     domains := domains w |}.

(** [domain.active]. *)
Definition domain_active (w : World) : option Domain := head (domains w).

(** An object literal or [{}] evaluated in [w]. *)
Definition new_object (o : object) (w : World) : value * World :=
  let (v, h) := alloc o (heap w) in (v, with_heap h w).

(** [PrettyJsonDefaultOptions]. *)
Record PrettyJsonOptions := { defaultIndentation : Z; inlineArrays : Z }.

Definition PrettyJsonDefaultOptions : PrettyJsonOptions :=
  {| defaultIndentation := 4; inlineArrays := 1 |}.

Definition nl : string := String (ascii_of_nat 10) EmptyString.
Definition tab : string := String (ascii_of_nat 9) EmptyString.

(** [s.replace(/\n/g, '\n\t')]. *)
Fixpoint indent_lines (s : string) : string :=
  match s with
  | EmptyString => EmptyString
  | String c r =>
      if Ascii.eqb c (ascii_of_nat 10) then nl +:+ tab +:+ indent_lines r
      else String c (indent_lines r)
  end.

(** [_.omit(o, ...keys)] on a plain object. *)
Definition omit (o : object) (keys : list string) : object :=
  filter (fun kv => fst kv ∉ keys) o.

(** The modules [logger.js] requires and whose code is not at hand, and the
    libraries it calls, enter as one parameter: every result below holds
    whatever they compute.
    - [loggerLevels]: [require('./levels')];
    - [load_env]: [process.env] when the module was loaded;
    - [logLevelFilter]: [logLevelFilter({ logLevel, outputType })];
    - [isEnabled]: [isEnabled(namespace, logPatterns)];
    - [serialize]: [serializer.serialize(message, additionalArguments,
      outputType)], with the store and the clock it reads; the event is a
      new object;
    - [eventFormatter]: [eventFormatter(event, logFormat)];
    - [stringify]: [json-stringify-safe];
    - [render]: [prettyjson.render(data, options)]. *)
Class Modules := {
  loggerLevels : levels.t;
  load_env : Env;
  logLevelFilter : JS.heap -> value -> value -> value;
  isEnabled : JS.heap -> value -> value -> value;
  serialize : Serializer -> JS.heap -> string -> value -> value -> value -> object;
  eventFormatter : JS.heap -> object -> value -> object;
  stringify : JS.heap -> object -> string;
  render : JS.heap -> object -> PrettyJsonOptions -> string;
}.

Section LoggerClass.

Context {M : Modules}.

(** [prettyPrint(event)]. *)
Definition prettyPrint (h : JS.heap) (event : object) : string :=
  let header :=
    "[" +:+ to_string (get "timestamp" event) +:+ "]: ["
        +:+ to_string (get "message" event) +:+ "]" in
  let eventDetails := omit event ["timestamp"; "message"] in
  let body := indent_lines (render h eventDetails PrettyJsonDefaultOptions) in
  nl +:+ header +:+ nl +:+ tab +:+ body +:+ nl +:+ nl.

(** [DEFAULT_LOGGER_ATTRIBUTES]. *)
Definition DEFAULT_LOGGER_ATTRIBUTES : object :=
  [ ("logLevel", js_or (getenv (LOG_LEVEL load_env)) (levels.error loggerLevels));
    ("logLimit", js_or (getenv (LOG_LIMIT load_env)) (VNum 7000));
    ("logPatterns", js_or (getenv (LOG_NAMESPACES load_env)) VUndefined);
    ("namespace", VStr "") ].

(** [normalizeArguments(options, extraParameters)]: the properties of the
    object it returns. *)
Definition normalizeArguments (h : JS.heap) (options : value)
    (extraParameters : list value) : object :=
  if negb (truthy options) then DEFAULT_LOGGER_ATTRIBUTES
  else if (length extraParameters =? 0)%nat then
    assign (assign [] DEFAULT_LOGGER_ATTRIBUTES) (own_props h options)
  else
    let namespace := nth 0 extraParameters VUndefined in
    let logPatterns := nth 1 extraParameters VUndefined in
    let logLimit := nth 2 extraParameters VUndefined in
    let logLevel := nth 3 extraParameters VUndefined in
    [ ("context", options);
      ("logLevel", logLevel);
      ("logLimit", logLimit);
      ("logPatterns", logPatterns);
      ("namespace", namespace) ].

(** [new Logger(options, ...extraParameters)]. *)
Definition new_Logger (w : World) (options : value) (extraParameters : list value)
    : Logger :=
  let attrs := normalizeArguments (heap w) options extraParameters in
  let context := get "context" attrs in
  let namespace := get "namespace" attrs in
  let logFormat := get "logFormat" attrs in
  let logPatterns := get "logPatterns" attrs in
  let logLimit := get "logLimit" attrs in
  let logLevel := get "logLevel" attrs in
  {| contextData := {| context := context; name := getenv (APP_NAME (env w)) |};
     format := if truthy (getenv (LOGS_PRETTY_PRINT (env w)))
               then prettyPrint_fn else stringify_fn;
     log := info_method;
     logFormat := logFormat;
     logLevel := logLevel;
     logLimit := logLimit;
     logPatterns := logPatterns;
     namespace := namespace;
     serializer :=
       new_Serializer {| context := context; name := getenv (APP_NAME (env w)) |}
                      namespace logLimit |}.

(** [createChildLogger(namespace)]. *)
Definition createChildLogger (this : Logger) (namespace' : value) (w : World)
    : Logger * World :=
  let prefix :=
    if truthy (namespace this) then to_string (namespace this) +:+ ":" else "" in
  let logPatterns := logPatterns this in
  let (options, w') :=
    new_object [ ("context", context (contextData this));
                 ("logPatterns", logPatterns);
                 ("namespace", VStr (prefix +:+ to_string namespace')) ] w in
  (new_Logger w' options [], w').

(** [this.format(formattedEvent)]. *)
Definition apply_format (f : formatter) (h : JS.heap) (event : object) : string :=
  match f with
  | prettyPrint_fn => prettyPrint h event
  | stringify_fn => stringify h event
  end.

(** [shouldSuppressOutput(outputType)]. *)
Definition shouldSuppressOutput (this : Logger) (outputType : value) (w : World) : bool :=
  existsb (fun response => negb (is_true response))
    [ logLevelFilter (heap w) (logLevel this) outputType;
      isEnabled (heap w) (namespace this) (logPatterns this) ].

(** The default [outputType = loggerLevels.log] of [output]; an argument
    left out is [undefined]. *)
Definition default_outputType (outputType : value) : value :=
  match outputType with
  | VUndefined => levels.log loggerLevels
  | _ => outputType
  end.

(** [output(message, additionalArguments, outputType = loggerLevels.log)]. *)
Definition output (this : Logger) (message additionalArguments outputType : value)
    (w : World) : World :=
  let outputType := default_outputType outputType in
  if shouldSuppressOutput this outputType w then w
  else
    let event :=
      serialize (serializer this) (heap w) (now w) message additionalArguments outputType in
    let formattedEvent := eventFormatter (heap w) event (logFormat this) in
    console_log (apply_format (format this) (heap w) formattedEvent) w.

(** The default [additionalArguments = {}] of the emit methods. *)
Definition default_arguments (additionalArguments : value) (w : World) : value * World :=
  match additionalArguments with
  | VUndefined => new_object [] w
  | _ => (additionalArguments, w)
  end.

(** [info(message, additionalArguments = {})]. *)
Definition info (this : Logger) (message additionalArguments : value) (w : World) : World :=
  let (additionalArguments, w) := default_arguments additionalArguments w in
  output this message additionalArguments VUndefined w.

(** [warn(message, additionalArguments = {})]. *)
Definition warn (this : Logger) (message additionalArguments : value) (w : World) : World :=
  let (additionalArguments, w) := default_arguments additionalArguments w in
  output this message additionalArguments (levels.warn loggerLevels) w.

(** [error(message, additionalArguments = {})]. *)
Definition error (this : Logger) (message additionalArguments : value) (w : World) : World :=
  let (additionalArguments, w) := default_arguments additionalArguments w in
  output this message additionalArguments (levels.error loggerLevels) w.

(** [debug(message, additionalArguments = {})]. *)
Definition debug (this : Logger) (message additionalArguments : value) (w : World) : World :=
  let (additionalArguments, w) := default_arguments additionalArguments w in
  output this message additionalArguments (levels.debug loggerLevels) w.

(** A call of the function a field holds, with the logger as [this]:
    [logger.log(message, additionalArguments)] is [invoke (log logger) logger]. *)
Definition invoke (m : method) (this : Logger) : value -> value -> World -> World :=
  match m with
  | info_method => info this
  | warn_method => warn this
  | error_method => error this
  | debug_method => debug this
  end.

(** [setSessionId(sessionId)]: the logger after the assignment to
    [this.contextData.context], and the store with the two object literals
    of the call, [{}] and [{ sessionId }]. *)
Definition setSessionId (this : Logger) (sessionId : value) (w : World) : Logger * World :=
  let (target, w1) := new_object [] w in
  let source := context (contextData this) in
  let (session, w2) := new_object [("sessionId", sessionId)] w1 in
  let w3 := with_heap (object_assign target [source; session] (heap w2)) w2 in
  ({| contextData := {| context := target; name := name (contextData this) |};
      format := format this;
      log := log this;
      logFormat := logFormat this;
      logLevel := logLevel this;
      logLimit := logLimit this;
      logPatterns := logPatterns this;
      namespace := namespace this;
      serializer := serializer this |}, w3).

(** The store after the two object literals of [setSessionId]. *)
Definition session_store (h : JS.heap) (sessionId : value) : JS.heap :=
  (h ++ [[]]) ++ [[("sessionId", sessionId)]].

(** [Logger.current()]; [None] is [undefined]. *)
Definition current (w : World) : option Logger :=
  match domain_active w with
  | None => Some (new_Logger w VUndefined [])
  | Some active => logger active
  end.

(** The third argument an emit method hands to [output]; [info] hands none. *)
Definition method_severity (m : method) : value :=
  match m with
  | info_method => VUndefined
  | warn_method => levels.warn loggerLevels
  | error_method => levels.error loggerLevels
  | debug_method => levels.debug loggerLevels
  end.

(** The words of the specification the code is compared with: the level
    filter allows the severity and the namespace matcher enables the
    namespace, each by answering [true]. *)
Definition allowed (this : Logger) (outputType : value) (w : World) : bool :=
  is_true (logLevelFilter (heap w) (logLevel this) outputType)
  && is_true (isEnabled (heap w) (namespace this) (logPatterns this)).

(** The emission of one event: it is serialized by the logger's serializer,
    formatted, and the line is handed to [console.log]. *)
Definition emit (this : Logger) (message additionalArguments outputType : value)
    (w : World) : World :=
  console_log
    (apply_format (format this) (heap w)
       (eventFormatter (heap w)
          (serialize (serializer this) (heap w) (now w) message additionalArguments
             outputType)
          (logFormat this)))
    w.

End LoggerClass.

(** ** The loggers the class makes *)

Section LoggerLifecycle.

Context {M : Modules}.

(** A logger comes from the constructor, from [createChildLogger] on a
    logger, or is a logger after [setSessionId]. *)
Inductive made : Logger -> Prop :=
| made_new w options extraParameters :
    made (new_Logger w options extraParameters)
| made_child this suffix w :
    made this -> made (fst (createChildLogger this suffix w))
| made_session this sessionId w :
    made this -> made (fst (setSessionId this sessionId w)).

End LoggerLifecycle.

(** ** Node's domain stack

    [domain.active] is the domain entered last and not yet left.  The
    application creates a domain, may assign its [logger] property, and runs
    code inside it; [logger.js] only reads [domain.active]. *)

(** [d = domain.create(); d.enter()]: a new domain has no [logger]. *)
Definition domain_enter (w : World) : World :=
  {| heap := heap w; console := console w; env := env w; now := now w;
     domains := {| logger := None |} :: domains w |}.

(** [domain.active.logger = l]. *)
Definition domain_bind (l : Logger) (w : World) : World :=
  {| heap := heap w; console := console w; env := env w; now := now w;
     domains := match domains w with
                | [] => []
                | _ :: ds => {| logger := Some l |} :: ds
                end |}.

(** [domain.active.exit()]. *)
Definition domain_exit (w : World) : World :=
  {| heap := heap w; console := console w; env := env w; now := now w;
     domains := tail (domains w) |}.

(** The worlds an application can be in: it starts outside every domain. *)
Inductive reachable : World -> Prop :=
| reachable_start w : domains w = [] -> reachable w
| reachable_enter w : reachable w -> reachable (domain_enter w)
| reachable_bind l w : reachable w -> reachable (domain_bind l w)
| reachable_exit w : reachable w -> reachable (domain_exit w).

(** ** The level filter *)

Module LevelFilter.

(** Modelled from the spec: the module [./log-level-filter] and the
    severities of [./levels] it ranks are not among the sources.  The spec
    gives the ordered set of severities debug < log < info < warn < error,
    each with a fixed rank, a higher rank being more severe. *)
Inductive Severity := debug | log | info | warn | error.

Definition rank (s : Severity) : nat :=
  match s with
  | debug => 0
  | log => 1
  | info => 2
  | warn => 3
  | error => 4
  end.

(** Modelled from the spec: allow iff [rank(severity) >= rank(threshold)]. *)
Definition allow (threshold severity : Severity) : bool :=
  (rank threshold <=? rank severity)%nat.

Definition suppressed (threshold severity : Severity) : bool :=
  negb (allow threshold severity).

End LevelFilter.

(** ** The namespace matcher *)

Module NamespaceMatcher.

(** Modelled from the spec: the module [./is-enabled] is not among the
    sources.  A pattern expression is a comma-separated list of terms; a
    term prefixed with [-] is an exclusion term; a term ending in [*] asks
    the namespace to start with what precedes the [*], any other term asks
    for equality; an empty term is skipped.  The compiled form is a pair of
    ordered sequences of matchers. *)
Inductive matcher := Exact (s : string) | Prefix (p : string).

Record compiled := { inclusions : list matcher; exclusions : list matcher }.

(** The pieces of [s] between its commas. *)
Fixpoint split_commas (s : string) : list string :=
  match s with
  | EmptyString => [EmptyString]
  | String c r =>
      if Ascii.eqb c "," then EmptyString :: split_commas r
      else match split_commas r with
           | [] => [String c EmptyString]
           | t :: ts => String c t :: ts
           end
  end.

(** The pieces put together again, a comma between two of them. *)
Fixpoint join_commas (ts : list string) : string :=
  match ts with
  | [] => EmptyString
  | [t] => t
  | t :: r => t +:+ "," +:+ join_commas r
  end.

(** [Some p] when [t] is [p] followed by a final [*]. *)
Fixpoint strip_star (t : string) : option string :=
  match t with
  | EmptyString => None
  | String c EmptyString => if Ascii.eqb c "*" then Some EmptyString else None
  | String c r => String c <$> strip_star r
  end.

Definition compile_term (t : string) : matcher :=
  match strip_star t with
  | Some p => Prefix p
  | None => Exact t
  end.

Fixpoint starts_with (p s : string) : bool :=
  match p, s with
  | EmptyString, _ => true
  | String a p', String b s' => Ascii.eqb a b && starts_with p' s'
  | String _ _, EmptyString => false
  end.

Definition test (ns : string) (m : matcher) : bool :=
  match m with
  | Exact s => String.eqb ns s
  | Prefix p => starts_with p ns
  end.

(** The body of an exclusion term, [None] for an inclusion term. *)
Definition exclusion_body (t : string) : option string :=
  match t with
  | String c r => if Ascii.eqb c "-" then Some r else None
  | EmptyString => None
  end.

Definition nonempty (t : string) : bool := negb (String.eqb t "").

(** The terms of an expression: its non-empty pieces. *)
Definition terms (patternExpression : string) : list string :=
  List.filter nonempty (split_commas patternExpression).

Fixpoint compile_terms (ts : list string) : compiled :=
  match ts with
  | [] => {| inclusions := []; exclusions := [] |}
  | t :: r =>
      let c := compile_terms r in
      match exclusion_body t with
      | Some b => {| inclusions := inclusions c;
                     exclusions := compile_term b :: exclusions c |}
      | None => {| inclusions := compile_term t :: inclusions c;
                   exclusions := exclusions c |}
      end
  end.

(** Compilation of a pattern expression; [None] is an absent one. *)
Definition compile (patternExpression : option string) : compiled :=
  match patternExpression with
  | None => {| inclusions := []; exclusions := [] |}
  | Some e => compile_terms (terms e)
  end.

Definition enabled (c : compiled) (ns : string) : bool :=
  (match inclusions c with [] => true | _ => existsb (test ns) (inclusions c) end)
  && negb (existsb (test ns) (exclusions c)).

Definition isEnabled (namespace : string) (patternExpression : option string) : bool :=
  enabled (compile patternExpression) namespace.

(** The reading of the spec's words the matcher is compared with. *)

(** [t] matches [ns]: a term ending in [*] is a prefix of [ns] up to the
    [*]; a term without it equals [ns]. *)
Definition matches (t ns : string) : Prop :=
  (exists p, t = p +:+ "*" /\ exists suffix, ns = p +:+ suffix)
  \/ ((forall p, t <> p +:+ "*") /\ ns = t).

Definition inclusion_term (e t : string) : Prop :=
  In t (split_commas e) /\ t <> "" /\ forall b, t <> "-" +:+ b.

(** [b] is what follows the [-] of an exclusion term of [e]. *)
Definition exclusion_term (e b : string) : Prop :=
  In ("-" +:+ b) (split_commas e).

Definition spec_enabled (ns e : string) : Prop :=
  ((forall t, ~ inclusion_term e t) \/ exists t, inclusion_term e t /\ matches t ns)
  /\ forall b, exclusion_term e b -> ~ matches b ns.

End NamespaceMatcher.

(** ** The serializer *)

Module SerializerModel.

(** Modelled from the spec: the module [./serializer] is not among the
    sources.  Serialization merges the context, the message, the extra
    fields, a generated timestamp and the severity into one record; a
    circular reference is replaced with a stable marker; for the debug
    severity a payload whose serialized form exceeds [sizeLimit] bytes is cut
    to [sizeLimit] bytes and a truncation marker is appended; message and
    timestamp are never truncated.  A payload with its circular references
    replaced is a finite tree. *)
Inductive tree :=
| TUndefined
| TNull
| TBool (b : bool)
| TNum (n : Z)
| TStr (s : string)
| TObject (props : list (string * tree))
| TCircular.

(** A payload of an event: whole, or the first bytes of its serialized
    form followed by the truncation marker. *)
Inductive payload :=
| Whole (t : tree)
| Truncated (bytes : string).

Record Event := {
  ev_timestamp : string;
  ev_severity : LevelFilter.Severity;
  ev_message : value;
  ev_context : payload;
  ev_extraFields : payload;
}.

(** The value reached from [v] in the store [h] with every reference to an
    object that is being visited ([ancestors]) replaced by the marker.
    [fuel] bounds the number of nested objects; [None] when it runs out or a
    reference leads outside the store. *)
Fixpoint decycle (fuel : nat) (h : JS.heap) (ancestors : list loc) (v : value)
    : option tree :=
  match v with
  | VUndefined => Some TUndefined
  | VNull => Some TNull
  | VBool b => Some (TBool b)
  | VNum n => Some (TNum n)
  | VStr s => Some (TStr s)
  | VRef l =>
      if bool_decide (l ∈ ancestors) then Some TCircular
      else match fuel with
           | O => None
           | S fuel' =>
               match h !! l with
               | None => None
               | Some o =>
                   TObject <$>
                     mapM (fun kv => pair (fst kv) <$>
                                       decycle fuel' h (l :: ancestors) (snd kv)) o
               end
           end
  end.

(** No object of a store of [length h] objects nests deeper than that. *)
Definition resolve (h : JS.heap) (v : value) : option tree :=
  decycle (length h) h [] v.

Definition is_debug (s : LevelFilter.Severity) : bool :=
  match s with
  | LevelFilter.debug => true
  | _ => false
  end.

Section Serialize.

(** The serialized form, a string of bytes, and the truncation marker. *)
Variable encode : tree -> string.
Variable truncation_marker : string.

Definition payload_bytes (p : payload) : string :=
  match p with
  | Whole t => encode t
  | Truncated bytes => bytes
  end.

(** The serialized size of a payload, in bytes. *)
Definition payload_size (p : payload) : nat := String.length (payload_bytes p).

Definition truncate (sizeLimit : nat) (bytes : string) : string :=
  substring 0 sizeLimit bytes +:+ truncation_marker.

(** Size-bounding of one payload. *)
Definition bound (severity : LevelFilter.Severity) (sizeLimit : nat) (t : tree)
    : payload :=
  if is_debug severity && (sizeLimit <? String.length (encode t))%nat
  then Truncated (truncate sizeLimit (encode t))
  else Whole t.

(** [serialize(message, extraFields, severity)] of a serializer bound to
    [context] and [sizeLimit], in the store [h] at the time [now]; [None]
    is a failure. *)
Definition serialize (h : JS.heap) (now : string) (context : value) (sizeLimit : nat)
    (message extraFields : value) (severity : LevelFilter.Severity) : option Event :=
  match resolve h context, resolve h extraFields with
  | Some c, Some e =>
      Some {| ev_timestamp := now;
              ev_severity := severity;
              ev_message := message;
              ev_context := bound severity sizeLimit c;
              ev_extraFields := bound severity sizeLimit e |}
  | _, _ => None
  end.

End Serialize.

(** The traversal without the marker, as a plain [JSON.stringify] makes
    it: a reference to an object under visit is an error, the "circular
    structure" exception. *)
Fixpoint traverse_plain (fuel : nat) (h : JS.heap) (ancestors : list loc) (v : value)
    : option tree :=
  match v with
  | VUndefined => Some TUndefined
  | VNull => Some TNull
  | VBool b => Some (TBool b)
  | VNum n => Some (TNum n)
  | VStr s => Some (TStr s)
  | VRef l =>
      if bool_decide (l ∈ ancestors) then None
      else match fuel with
           | O => None
           | S fuel' =>
               match h !! l with
               | None => None
               | Some o =>
                   TObject <$>
                     mapM (fun kv => pair (fst kv) <$>
                                       traverse_plain fuel' h (l :: ancestors) (snd kv)) o
               end
           end
  end.

(** The properties of an object, each with its circular references
    replaced. *)
Definition resolve_object (h : JS.heap) (o : object) : option tree :=
  TObject <$> mapM (fun kv => pair (fst kv) <$> resolve h (snd kv)) o.

Definition severity_name (s : LevelFilter.Severity) : string :=
  match s with
  | LevelFilter.debug => "debug"
  | LevelFilter.log => "log"
  | LevelFilter.info => "info"
  | LevelFilter.warn => "warn"
  | LevelFilter.error => "error"
  end.



(** The same record as the object the logger passes on: a payload that is
    whole is the value it was, a truncated one is a string. *)
Definition payload_value (original : value) (p : payload) : value :=
  match p with
  | Whole _ => original
  | Truncated bytes => VStr bytes
  end.

Definition event_object (context extraFields : value) (event : Event) : object :=
  [ ("timestamp", VStr (ev_timestamp event));
    ("severity", VStr (severity_name (ev_severity event)));
    ("message", ev_message event);
    ("context", payload_value context (ev_context event));
    ("extraFields", payload_value extraFields (ev_extraFields event)) ].

(** A serialized form for the examples: JSON text, the marker of a circular
    reference being the string [Circular] in brackets. *)
Definition quote : string := String (ascii_of_nat 34) EmptyString.

Fixpoint json (t : tree) : string :=
  match t with
  | TUndefined => "null"
  | TNull => "null"
  | TBool true => "true"
  | TBool false => "false"
  | TNum n => pretty n
  | TStr s => quote +:+ s +:+ quote
  | TCircular => quote +:+ "[Circular]" +:+ quote
  | TObject props =>
      let fix members (ps : list (string * tree)) : string :=
        match ps with
        | [] => ""
        | [(k, x)] => quote +:+ k +:+ quote +:+ ":" +:+ json x
        | (k, x) :: r => quote +:+ k +:+ quote +:+ ":" +:+ json x +:+ "," +:+ members r
        end in
      "{" +:+ members props +:+ "}"
  end.

(** A store with one object that refers to itself, and a marker. *)
Definition example_store : JS.heap :=
  [[("name", VStr "request"); ("self", VRef 0)]].

Definition example_marker : string := "...[truncated]".

Definition example_tree : tree :=
  TObject [("name", TStr "request"); ("self", TCircular)].

End SerializerModel.

(** ** Exceptions

    [output] with collaborators that may throw: [None] is an exception,
    which [output] does not catch and so reaches the caller. *)

Class Throwing := {
  throwing_levels : levels.t;
  may_logLevelFilter : JS.heap -> value -> value -> option value;
  may_isEnabled : JS.heap -> value -> value -> option value;
  may_serialize :
    Serializer -> JS.heap -> string -> value -> value -> value -> option object;
  may_eventFormatter : JS.heap -> object -> value -> option object;
  may_stringify : JS.heap -> object -> option string;
  may_render : JS.heap -> object -> PrettyJsonOptions -> option string;
}.

Section ThrowingOutput.

Context {T : Throwing}.

(** [prettyPrint(event)], where [prettyjson.render] may throw. *)
Definition try_prettyPrint (h : JS.heap) (event : object) : option string :=
  let header :=
    "[" +:+ to_string (get "timestamp" event) +:+ "]: ["
        +:+ to_string (get "message" event) +:+ "]" in
  let eventDetails := omit event ["timestamp"; "message"] in
  match may_render h eventDetails PrettyJsonDefaultOptions with
  | Some rendered =>
      Some (nl +:+ header +:+ nl +:+ tab +:+ indent_lines rendered +:+ nl +:+ nl)
  | None => None
  end.

(** [this.format(formattedEvent)]. *)
Definition try_format (f : formatter) (h : JS.heap) (event : object) : option string :=
  match f with
  | prettyPrint_fn => try_prettyPrint h event
  | stringify_fn => may_stringify h event
  end.

(** [shouldSuppressOutput(outputType)]: both answers are computed, then
    compared with [true]. *)
Definition try_shouldSuppressOutput (this : Logger) (outputType : value) (w : World)
    : option bool :=
  match may_logLevelFilter (heap w) (logLevel this) outputType with
  | Some level =>
      match may_isEnabled (heap w) (namespace this) (logPatterns this) with
      | Some enabled =>
          Some (existsb (fun response => negb (is_true response)) [level; enabled])
      | None => None
      end
  | None => None
  end.

(** [output(message, additionalArguments, outputType = loggerLevels.log)]. *)
Definition try_output (this : Logger) (message additionalArguments outputType : value)
    (w : World) : option World :=
  let outputType :=
    match outputType with
    | VUndefined => levels.log throwing_levels
    | _ => outputType
    end in
  match try_shouldSuppressOutput this outputType w with
  | None => None
  | Some true => Some w
  | Some false =>
      match may_serialize (serializer this) (heap w) (now w) message
              additionalArguments outputType with
      | None => None
      | Some event =>
          match may_eventFormatter (heap w) event (logFormat this) with
          | None => None
          | Some formattedEvent =>
              match try_format (format this) (heap w) formattedEvent with
              | None => None
              | Some line => Some (console_log line w)
              end
          end
      end
  end.


End ThrowingOutput.


Section SpecSerializer.

(** The serialized form and the truncation marker of the serializer, the
    severity a level of the table stands for and the number of bytes a
    [logLimit] stands for. *)
Variable encode : SerializerModel.tree -> string.
Variable truncation_marker : string.
Variable severity_of : value -> LevelFilter.Severity.
Variable limit_of : value -> nat.

(** [serializer.serialize(message, additionalArguments, outputType)] by the
    serializer of the spec, bound to the context and the limit it was
    constructed with; [None] when it fails. *)
Definition serialize_by_spec (s : Serializer) (h : JS.heap) (t : string)
    (message additionalArguments outputType : value) : option object :=
  SerializerModel.event_object (context (ser_contextData s)) additionalArguments <$>
    SerializerModel.serialize encode truncation_marker h t
      (context (ser_contextData s)) (limit_of (ser_logLimit s))
      message additionalArguments (severity_of outputType).

(** [json-stringify-safe]: the text of the object with its circular
    references replaced. *)
Definition stringify_safe (h : JS.heap) (o : object) : option string :=
  encode <$> SerializerModel.resolve_object h o.

(** The logger with the serializer of the spec and [json-stringify-safe],
    its other collaborators being those of [M]. *)
Definition with_spec_serializer (M : Modules) : Throwing :=
  {| throwing_levels := loggerLevels;
     may_logLevelFilter := fun h level outputType => Some (logLevelFilter h level outputType);
     may_isEnabled := fun h ns patterns => Some (isEnabled h ns patterns);
     may_serialize := serialize_by_spec;
     may_eventFormatter := fun h event fmt => Some (eventFormatter h event fmt);
     may_stringify := stringify_safe;
     may_render := fun h event options => Some (render h event options) |}.

End SpecSerializer.

(** ** An instance for the examples *)

Module Example.

(** The severities under the names the documentation of the constructor
    gives them. *)
Definition example_levels : levels.t :=
  {| levels.debug := VStr "debug"; levels.error := VStr "error";
     levels.warn := VStr "warn"; levels.log := VStr "log" |}.

Definition severity_of_value (v : value) : option LevelFilter.Severity :=
  match v with
  | VStr "debug" => Some LevelFilter.debug
  | VStr "log" => Some LevelFilter.log
  | VStr "info" => Some LevelFilter.info
  | VStr "warn" => Some LevelFilter.warn
  | VStr "error" => Some LevelFilter.error
  | _ => None
  end.

Definition example_filter (h : JS.heap) (logLevel outputType : value) : value :=
  match severity_of_value logLevel, severity_of_value outputType with
  | Some t, Some s => VBool (LevelFilter.allow t s)
  | _, _ => VUndefined
  end.

Definition example_matcher (h : JS.heap) (namespace logPatterns : value) : value :=
  match namespace with
  | VStr ns =>
      VBool (NamespaceMatcher.isEnabled ns
               (match logPatterns with VStr e => Some e | _ => None end))
  | _ => VUndefined
  end.

Definition example_event (s : Serializer) (h : JS.heap) (now : string)
    (message additionalArguments outputType : value) : object :=
  [ ("timestamp", VStr now); ("message", message); ("level", outputType);
    ("namespace", ser_namespace s) ].

Definition example_line (h : JS.heap) (event : object) : string :=
  to_string (get "level" event) +:+ " " +:+ to_string (get "namespace" event)
    +:+ " " +:+ to_string (get "message" event).

Definition no_env : Env :=
  {| LOG_LEVEL := None; LOG_LIMIT := None; LOG_NAMESPACES := None;
     APP_NAME := None; LOGS_PRETTY_PRINT := None |}.

Definition example_modules : Modules :=
  {| loggerLevels := example_levels;
     load_env := no_env;
     logLevelFilter := example_filter;
     isEnabled := example_matcher;
     serialize := example_event;
     eventFormatter := fun _ event _ => event;
     stringify := example_line;
     render := fun h event _ => example_line h event |}.

(** [new Logger({ namespace: 'db', logPatterns: 'db,-db:verbose',
    logLevel: 'warn' })]. *)
Definition scenario_world : World :=
  {| heap := [[ ("namespace", VStr "db");
                ("logPatterns", VStr "db,-db:verbose");
                ("logLevel", VStr "warn") ]];
     console := [];
     env := no_env;
     now := "2019-03-01T12:00:00.000Z";
     domains := [] |}.

Definition scenario_logger : Logger :=
  new_Logger (M := example_modules) scenario_world (VRef 0) [].

End Example.

(** ** Instances for the edge cases *)

Module EdgeExamples.

(** A table of levels without the entry [warn]. *)
Definition levels_without_warn : levels.t :=
  {| levels.debug := VStr "debug"; levels.error := VStr "error";
     levels.warn := VUndefined; levels.log := VStr "log" |}.

Definition modules_without_warn : Modules :=
  {| loggerLevels := levels_without_warn;
     load_env := Example.no_env;
     logLevelFilter := Example.example_filter;
     isEnabled := Example.example_matcher;
     serialize := Example.example_event;
     eventFormatter := fun _ event _ => event;
     stringify := Example.example_line;
     render := fun h event _ => Example.example_line h event |}.

(** A level filter that answers the number 1, a truthy value that is not
    [true]. *)
Definition modules_answering_one : Modules :=
  {| loggerLevels := Example.example_levels;
     load_env := Example.no_env;
     logLevelFilter := fun _ _ _ => VNum 1;
     isEnabled := Example.example_matcher;
     serialize := Example.example_event;
     eventFormatter := fun _ event _ => event;
     stringify := Example.example_line;
     render := fun h event _ => Example.example_line h event |}.

(** The options [{ logLevel: undefined, namespace: 'db' }] at address 0. *)
Definition undefined_level_world : World :=
  {| heap := [[ ("logLevel", VUndefined); ("namespace", VStr "db") ]];
     console := [];
     env := Example.no_env;
     now := "2019-03-01T12:00:00.000Z";
     domains := [] |}.

(** A request object that refers to itself at address 0, used as context,
    message and extra fields of a logger made from the options at address
    1. *)
Definition cyclic_world : World :=
  {| heap := [ [("name", VStr "request"); ("self", VRef 0)]; [("context", VRef 0)] ];
     console := [];
     env := Example.no_env;
     now := "2019-03-01T12:00:00.000Z";
     domains := [] |}.

Definition cyclic_logger : Logger :=
  new_Logger (M := Example.example_modules) cyclic_world (VRef 1) [].

Definition example_severity (v : value) : LevelFilter.Severity :=
  default LevelFilter.log (Example.severity_of_value v).

Definition example_limit (v : value) : nat :=
  match v with
  | VNum n => Z.to_nat n
  | _ => 0
  end.

(** [new Logger({ context: { api: 'orders' } })], the context at address 0
    and the options at address 1. *)
Definition context_world : World :=
  {| heap := [ [("api", VStr "orders")]; [("context", VRef 0)] ];
     console := [];
     env := Example.no_env;
     now := "2019-03-01T12:00:00.000Z";
     domains := [] |}.

Definition context_logger : Logger :=
  new_Logger (M := Example.example_modules) context_world (VRef 1) [].

End EdgeExamples.

(** * Properties *)

(** ** Objects and the store *)

Lemma lookup_set_prop k k' v o :
  lookup_prop k (set_prop k' v o) = if String.eqb k k' then Some v else lookup_prop k o.
Proof.
  induction o as [|[k0 v0] o IH]; simpl.
  - reflexivity.
  - destruct (String.eqb k' k0) eqn:E0; simpl.
    + apply String.eqb_eq in E0; subst k0.
      destruct (String.eqb k k'); reflexivity.
    + destruct (String.eqb k k0) eqn:E1.
      * destruct (String.eqb k k') eqn:E2; [|reflexivity].
        apply String.eqb_eq in E1, E2; subst.
        rewrite String.eqb_refl in E0; discriminate.
      * apply IH.
Qed.

(** A later property of the source wins; the target keeps the others. *)
Lemma lookup_assign k source : forall target,
  lookup_prop k (assign target source) =
  match lookup_prop k (rev source) with
  | Some v => Some v
  | None => lookup_prop k target
  end.
Proof.
  unfold assign.
  induction source as [|[k0 v0] s IH] using rev_ind; intros target.
  - reflexivity.
  - rewrite fold_left_app, rev_app_distr; simpl.
    rewrite lookup_set_prop.
    destruct (String.eqb k k0); [reflexivity | apply IH].
Qed.

Lemma lookup_alloc (o : object) (h : JS.heap) : (h ++ [o]) !! length h = Some o.
Proof. apply list_lookup_middle; reflexivity. Qed.

Lemma lookup_alloc_old (o : object) (h : JS.heap) (l : loc) :
  l < length h -> (h ++ [o]) !! l = h !! l.
Proof. intros Hl. apply lookup_app_l; exact Hl. Qed.

(** ** Strings *)

Lemma string_app_cons (x : ascii) (a b : string) :
  String x a +:+ b = String x (a +:+ b).
Proof. reflexivity. Qed.

Lemma string_app_assoc (a b c : string) : (a +:+ b) +:+ c = a +:+ (b +:+ c).
Proof.
  induction a as [|x a IH]; [reflexivity|].
  rewrite !string_app_cons, IH. reflexivity.
Qed.

Lemma string_app_length (a b : string) :
  String.length (a +:+ b) = String.length a + String.length b.
Proof.
  induction a as [|x a IH]; [reflexivity|].
  rewrite string_app_cons. simpl. rewrite IH. reflexivity.
Qed.

Lemma string_app_nil_r (a : string) : a +:+ "" = a.
Proof.
  induction a as [|x a IH]; [reflexivity|].
  rewrite string_app_cons, IH. reflexivity.
Qed.

(** ** Properties of the Logger class *)

Section LoggerProperties.

Context {M : Modules}.

Lemma suppress_not_allowed this outputType w :
  shouldSuppressOutput this outputType w = negb (allowed this outputType w).
Proof.
  unfold shouldSuppressOutput, allowed; simpl.
  rewrite orb_false_r, negb_andb; reflexivity.
Qed.

Lemma output_cases this message args outputType w :
  output this message args outputType w =
  if allowed this (default_outputType outputType) w
  then emit this message args (default_outputType outputType) w
  else w.
Proof.
  unfold output. rewrite suppress_not_allowed.
  destruct (allowed this _ w); reflexivity.
Qed.

Lemma invoke_output m this message args w :
  invoke m this message args w =
  output this message (fst (default_arguments args w))
    (method_severity m) (snd (default_arguments args w)).
Proof.
  destruct m; simpl; unfold info, warn, error, debug;
    destruct (default_arguments args w); reflexivity.
Qed.

Lemma default_arguments_console args w :
  console (snd (default_arguments args w)) = console w.
Proof. destruct args; reflexivity. Qed.

Lemma is_true_spec v : is_true v = true <-> v = VBool true.
Proof.
  destruct v as [| |[]| | |]; simpl; split; congruence.
Qed.

(** The code lets an event through exactly when both answers are the
    boolean [true]. *)
Lemma allowed_spec this outputType w :
  allowed this outputType w = true <->
  logLevelFilter (heap w) (logLevel this) outputType = VBool true
  /\ isEnabled (heap w) (namespace this) (logPatterns this) = VBool true.
Proof.
  unfold allowed. rewrite andb_true_iff, !is_true_spec. reflexivity.
Qed.

Lemma snoc_not_self {A} (l : list A) (x : A) : l ++ [x] <> l.
Proof.
  intros H. apply (f_equal (@length A)) in H.
  rewrite length_app in H; simpl in H; lia.
Qed.

(** [output] against the words of the claim, with nothing of the code
    between the two: the answers are compared with [VBool true] and the
    line is written out. *)
Lemma output_emits_iff this message args outputType w severity :
  severity = match outputType with
             | VUndefined => levels.log loggerLevels
             | _ => outputType
             end ->
  let both_allow :=
    logLevelFilter (heap w) (logLevel this) severity = VBool true
    /\ isEnabled (heap w) (namespace this) (logPatterns this) = VBool true in
  let line :=
    let event := serialize (serializer this) (heap w) (now w) message args severity in
    let formatted := eventFormatter (heap w) event (logFormat this) in
    match format this with
    | prettyPrint_fn => prettyPrint (heap w) formatted
    | stringify_fn => stringify (heap w) formatted
    end in
  let result := output this message args outputType w in
  (both_allow ->
   result = {| heap := heap w; console := console w ++ [line]; env := env w;
               now := now w; domains := domains w |})
  /\ (~ both_allow -> result = w)
  /\ (both_allow <-> console result = console w ++ [line])
  /\ (~ both_allow <-> console result = console w)
  /\ (both_allow <-> shouldSuppressOutput this severity w = false).
Proof.
  intros Hsev both_allow line result.
  assert (Hty : default_outputType outputType = severity)
    by (rewrite Hsev; destruct outputType; reflexivity).
  assert (Hres : result = if allowed this severity w
                          then emit this message args severity w else w).
  { unfold result. rewrite output_cases, Hty. reflexivity. }
  assert (Hemit : emit this message args severity w =
                  {| heap := heap w; console := console w ++ [line]; env := env w;
                     now := now w; domains := domains w |}).
  { unfold emit, console_log, apply_format, line. destruct (format this); reflexivity. }
  pose proof (allowed_spec this severity w) as Hspec. fold both_allow in Hspec.
  pose proof (suppress_not_allowed this severity w) as Hsup.
  destruct (allowed this severity w) eqn:E.
  - assert (both_allow) as Hyes by (apply Hspec; reflexivity).
    rewrite Hemit in Hres.
    split; [intros _; exact Hres|].
    split; [intros Hno; contradiction|].
    split; [split; [intros _; rewrite Hres; reflexivity | intros _; exact Hyes]|].
    split.
    + split; [intros Hno; contradiction|].
      rewrite Hres; simpl. intros H. destruct (snoc_not_self _ _ H).
    + split; [intros _; rewrite Hsup; reflexivity | intros _; exact Hyes].
  - assert (~ both_allow) as Hno by (intros H; apply Hspec in H; discriminate H).
    split; [intros Hyes; contradiction|].
    split; [intros _; exact Hres|].
    split.
    + split; [intros Hyes; contradiction|].
      rewrite Hres. intros H. symmetry in H. destruct (snoc_not_self _ _ H).
    + split; [split; [intros _; rewrite Hres; reflexivity | intros _; exact Hno]|].
      split; [intros Hyes; contradiction|].
      rewrite Hsup. discriminate.
Qed.

(** C1: each emit method ([debug], [info], [warn], [error]) writes its
    event exactly when the level filter answers [true] for the method's
    severity and the namespace matcher answers [true] for the logger's
    namespace and patterns: then one line, the formatted serialized
    event, is handed to [console.log]; when either answers anything else
    nothing is serialized or written and the world stays as it is.  The
    severity is the method's entry in the table of levels, the entry [log]
    for [info] and for an entry that is [undefined]; extra fields left out
    are a new empty object.  The same holds of [output] for any severity. *)
Theorem emit_iff_level_and_namespace_allow this message args w :
  let args' :=
    match args with
    | VUndefined => VRef (length (heap w))
    | _ => args
    end in
  let w' :=
    match args with
    | VUndefined =>
        {| heap := heap w ++ [[]]; console := console w; env := env w;
           now := now w; domains := domains w |}
    | _ => w
    end in
  let or_log severity :=
    match severity with
    | VUndefined => levels.log loggerLevels
    | _ => severity
    end in
  let both_allow u severity :=
    logLevelFilter (heap u) (logLevel this) severity = VBool true
    /\ isEnabled (heap u) (namespace this) (logPatterns this) = VBool true in
  let line u extra severity :=
    let event := serialize (serializer this) (heap u) (now u) message extra severity in
    let formatted := eventFormatter (heap u) event (logFormat this) in
    match format this with
    | prettyPrint_fn => prettyPrint (heap u) formatted
    | stringify_fn => stringify (heap u) formatted
    end in
  let emits_iff_allowed (result u : World) extra severity :=
    (both_allow u severity ->
     result = {| heap := heap u; console := console u ++ [line u extra severity];
                 env := env u; now := now u; domains := domains u |})
    /\ (~ both_allow u severity -> result = u)
    /\ (both_allow u severity <->
        console result = console u ++ [line u extra severity])
    /\ (~ both_allow u severity <-> console result = console u)
    /\ (both_allow u severity <-> shouldSuppressOutput this severity u = false) in
  emits_iff_allowed (debug this message args w) w' args'
    (or_log (levels.debug loggerLevels))
  /\ emits_iff_allowed (info this message args w) w' args' (levels.log loggerLevels)
  /\ emits_iff_allowed (warn this message args w) w' args'
       (or_log (levels.warn loggerLevels))
  /\ emits_iff_allowed (error this message args w) w' args'
       (or_log (levels.error loggerLevels))
  /\ (forall outputType,
        emits_iff_allowed (output this message args outputType w) w args
          (or_log outputType))
  /\ console w' = console w.
Proof.
  cbv zeta.
  assert (Hdef : default_arguments args w =
                 (match args with
                  | VUndefined => VRef (length (heap w))
                  | _ => args
                  end,
                  match args with
                  | VUndefined =>
                      {| heap := heap w ++ [[]]; console := console w; env := env w;
                         now := now w; domains := domains w |}
                  | _ => w
                  end)).
  { destruct args; reflexivity. }
  unfold debug, info, warn, error. rewrite Hdef.
  split; [apply (output_emits_iff this message _ (levels.debug loggerLevels));
          reflexivity|].
  split; [apply (output_emits_iff this message _ VUndefined); reflexivity|].
  split; [apply (output_emits_iff this message _ (levels.warn loggerLevels));
          reflexivity|].
  split; [apply (output_emits_iff this message _ (levels.error loggerLevels));
          reflexivity|].
  split; [intros outputType; apply (output_emits_iff this message args outputType);
          reflexivity|].
  destruct args; reflexivity.
Qed.

(** *** The constructor and child loggers *)

(** The attributes the constructor reads for the child of [this]. *)
Lemma child_is_constructed this suffix w :
  exists options w',
    createChildLogger this suffix w = (new_Logger w' options [], w')
    /\ env w' = env w
    /\ normalizeArguments (heap w') options [] =
       assign (assign [] DEFAULT_LOGGER_ATTRIBUTES)
         [ ("context", context (contextData this));
           ("logPatterns", logPatterns this);
           ("namespace",
            VStr ((if truthy (namespace this)
                   then to_string (namespace this) +:+ ":" else "")
                  +:+ to_string suffix)) ].
Proof.
  unfold createChildLogger, new_object, alloc.
  eexists _, _. split; [reflexivity|]. split; [reflexivity|].
  unfold normalizeArguments; simpl.
  rewrite lookup_alloc. reflexivity.
Qed.

(** Every field of the child but the four the parent hands over comes from
    the defaults and the environment. *)
Lemma child_fields this suffix w :
  let c := fst (createChildLogger this suffix w) in
  namespace c =
    VStr ((if truthy (namespace this) then to_string (namespace this) +:+ ":" else "")
          +:+ to_string suffix)
  /\ context (contextData c) = context (contextData this)
  /\ logPatterns c = logPatterns this
  /\ logLevel c = js_or (getenv (LOG_LEVEL load_env)) (levels.error loggerLevels)
  /\ logLimit c = js_or (getenv (LOG_LIMIT load_env)) (VNum 7000)
  /\ serializer c =
     new_Serializer {| context := context (contextData this);
                       name := getenv (APP_NAME (env w)) |}
                    (namespace c) (logLimit c)
  /\ log c = info_method
  /\ logFormat c = VUndefined.
Proof.
  destruct (child_is_constructed this suffix w) as (options & w' & -> & Henv & Hattrs).
  simpl. unfold new_Logger. rewrite Hattrs, Henv. simpl.
  repeat split; reflexivity.
Qed.

(** C7: the child's namespace is the parent's followed by a colon and the
    suffix when the parent's is non-empty, and the suffix alone otherwise;
    the child has the parent's context and pattern expression, and its
    threshold is the default one, not the parent's; two children made with
    the same suffix have the same namespace and pattern expression, so any
    matcher answers the same for both. *)
Theorem createChildLogger_namespace_and_inheritance this (suffix : string) w :
  let c1 := fst (createChildLogger this (VStr suffix) w) in
  let w1 := snd (createChildLogger this (VStr suffix) w) in
  let c2 := fst (createChildLogger this (VStr suffix) w1) in
  namespace c1 =
    VStr (if truthy (namespace this)
          then to_string (namespace this) +:+ ":" +:+ suffix else suffix)
  /\ (forall p, namespace this = VStr p ->
       namespace c1 = VStr (if String.eqb p "" then suffix else p +:+ ":" +:+ suffix))
  /\ context (contextData c1) = context (contextData this)
  /\ logPatterns c1 = logPatterns this
  /\ logLevel c1 = js_or (getenv (LOG_LEVEL load_env)) (levels.error loggerLevels)
  /\ namespace c2 = namespace c1
  /\ logPatterns c2 = logPatterns c1
  /\ (forall h, isEnabled h (namespace c2) (logPatterns c2) =
                isEnabled h (namespace c1) (logPatterns c1)).
Proof.
  intros c1 w1 c2.
  destruct (child_fields this (VStr suffix) w) as (Hns1 & Hctx1 & Hpat1 & Hlvl1 & _).
  destruct (child_fields this (VStr suffix) w1) as (Hns2 & _ & Hpat2 & _).
  fold c1 in Hns1, Hctx1, Hpat1, Hlvl1. fold c2 in Hns2, Hpat2.
  assert (Hns : namespace c1 =
                VStr (if truthy (namespace this)
                      then to_string (namespace this) +:+ ":" +:+ suffix else suffix)).
  { rewrite Hns1. simpl. destruct (truthy (namespace this)).
    - rewrite string_app_assoc. reflexivity.
    - reflexivity. }
  assert (Hsame : namespace c2 = namespace c1) by (rewrite Hns1, Hns2; reflexivity).
  assert (Hpat : logPatterns c2 = logPatterns c1) by (rewrite Hpat1, Hpat2; reflexivity).
  repeat split; try assumption.
  - intros p Hp. rewrite Hns, Hp. simpl.
    destruct (String.eqb p ""); reflexivity.
  - intros h. rewrite Hsame, Hpat. reflexivity.
Qed.

(** C10: a child logger gets its [logLevel] and [logLimit] from the
    defaults, whatever the parent's are: the environment's [LOG_LEVEL] and
    [LOG_LIMIT], and [loggerLevels.error] and 7000 when they are unset;
    only the parent's context, patterns and namespace reach the child. *)
Theorem child_logLevel_and_logLimit_are_defaults this suffix w :
  let c := fst (createChildLogger this suffix w) in
  logLevel c = js_or (getenv (LOG_LEVEL load_env)) (levels.error loggerLevels)
  /\ logLimit c = js_or (getenv (LOG_LIMIT load_env)) (VNum 7000)
  /\ ser_logLimit (serializer c) = logLimit c
  /\ (LOG_LEVEL load_env = None -> logLevel c = levels.error loggerLevels)
  /\ (LOG_LIMIT load_env = None -> logLimit c = VNum 7000)
  /\ (forall parent,
       context (contextData parent) = context (contextData this) ->
       logPatterns parent = logPatterns this ->
       namespace parent = namespace this ->
       createChildLogger parent suffix w = createChildLogger this suffix w).
Proof.
  cbv zeta.
  destruct (child_fields this suffix w) as (_ & _ & _ & Hlvl & Hlim & Hser & _).
  cbv zeta in Hlvl, Hlim, Hser.
  split; [exact Hlvl|]. split; [exact Hlim|].
  split; [rewrite Hser; reflexivity|].
  split; [|split].
  - intros Hunset. rewrite Hlvl, Hunset. reflexivity.
  - intros Hunset. rewrite Hlim, Hunset. reflexivity.
  - intros parent Hctx Hpat Hns. unfold createChildLogger.
    rewrite Hctx, Hpat, Hns. reflexivity.
Qed.

(** *** [info] and its alias [log] *)

(** C8: [log] is the [info] method, and both call [output] without a
    severity: the event is filtered and serialized at the default severity
    [loggerLevels.log], so the two are suppressed under the same
    thresholds and [info] has no severity of its own. *)
Theorem info_and_log_emit_at_log_severity this0 message args w :
  (forall w0 options extraParameters,
     let this := new_Logger w0 options extraParameters in
     log this = info_method
     /\ invoke (log this) this message args w = info this message args w
     /\ (forall suffix w1, log (fst (createChildLogger this suffix w1)) = info_method)
     /\ (forall sessionId w1, log (fst (setSessionId this sessionId w1)) = info_method))
  /\ method_severity info_method = VUndefined
  /\ default_outputType (method_severity info_method) = levels.log loggerLevels
  /\ info this0 message args w =
       output this0 message (fst (default_arguments args w)) VUndefined
         (snd (default_arguments args w))
  /\ info this0 message args w =
       (let args' := fst (default_arguments args w) in
        let w' := snd (default_arguments args w) in
        if allowed this0 (levels.log loggerLevels) w'
        then emit this0 message args' (levels.log loggerLevels) w'
        else w').
Proof.
  split; [|split; [|split; [|split]]].
  - intros w0 options extraParameters this. split; [reflexivity|].
    split; [reflexivity|]. split.
    + intros suffix w1. apply (child_fields this suffix w1).
    + intros sessionId w1. unfold setSessionId, new_object, alloc. reflexivity.
  - reflexivity.
  - reflexivity.
  - apply (invoke_output info_method).
  - change (info this0 message args w)
      with (invoke info_method this0 message args w).
    rewrite invoke_output, output_cases. reflexivity.
Qed.

(** *** [setSessionId] *)

Lemma session_store_target h sessionId :
  session_store h sessionId !! length h = Some [].
Proof.
  unfold session_store. rewrite lookup_app_l.
  - apply lookup_alloc.
  - rewrite length_app; simpl; lia.
Qed.

Lemma session_store_source h sessionId :
  session_store h sessionId !! S (length h) = Some [("sessionId", sessionId)].
Proof.
  unfold session_store.
  replace (S (length h)) with (length (h ++ [[]])) by (rewrite length_app; simpl; lia).
  apply lookup_alloc.
Qed.

Lemma session_store_old h sessionId l :
  l < length h -> session_store h sessionId !! l = h !! l.
Proof.
  intros Hl. unfold session_store.
  rewrite lookup_app_l by (rewrite length_app; simpl; lia).
  apply lookup_alloc_old, Hl.
Qed.

Lemma own_props_session_store h sessionId v :
  in_heap h v = true -> own_props (session_store h sessionId) v = own_props h v.
Proof.
  destruct v; simpl; try reflexivity.
  intros Hl. apply Nat.ltb_lt in Hl.
  rewrite session_store_old by exact Hl. reflexivity.
Qed.

(** What [setSessionId] returns, spelled out. *)
Lemma setSessionId_unfold this sessionId w :
  let h2 := session_store (heap w) sessionId in
  let merged :=
    set_prop "sessionId" sessionId
      (assign [] (own_props h2 (context (contextData this)))) in
  setSessionId this sessionId w =
  ({| contextData := {| context := VRef (length (heap w));
                        name := name (contextData this) |};
      format := format this;
      log := log this;
      logFormat := logFormat this;
      logLevel := logLevel this;
      logLimit := logLimit this;
      logPatterns := logPatterns this;
      namespace := namespace this;
      serializer := serializer this |},
   {| heap := <[length (heap w) := merged]> h2;
      console := console w; env := env w; now := now w; domains := domains w |}).
Proof.
  intros h2 merged.
  unfold setSessionId, new_object, alloc, with_heap; simpl.
  rewrite length_app; simpl.
  replace (length (heap w) + 1) with (S (length (heap w))) by lia.
  fold (session_store (heap w) sessionId). fold h2.
  assert (Hlen : length (heap w) < length h2).
  { unfold h2, session_store. rewrite !length_app; simpl; lia. }
  rewrite (list_lookup_insert_eq h2) by exact Hlen.
  rewrite list_lookup_insert_ne by lia.
  unfold h2 at 1 3. rewrite session_store_target, session_store_source. simpl.
  rewrite list_insert_insert_eq. reflexivity.
Qed.

(** C9: [setSessionId] makes [contextData.context] a new object that holds
    the properties of the old context and [sessionId]; the serializer is
    the one made by the constructor and still holds the context given
    there, so [output], which reads the serializer and never
    [contextData], emits what it emitted before; no other field of the
    logger and no object that existed before changes. *)
Theorem setSessionId_leaves_serializer this sessionId w :
  let this' := fst (setSessionId this sessionId w) in
  let w' := snd (setSessionId this sessionId w) in
  let old := context (contextData this) in
  let new := context (contextData this') in
  (new = VRef (length (heap w))
   /\ lookup_prop "sessionId" (own_props (heap w') new) = Some sessionId
   /\ (in_heap (heap w) old = true ->
       own_props (heap w') new =
       set_prop "sessionId" sessionId (assign [] (own_props (heap w) old))))
  /\ (serializer this' = serializer this
      /\ (forall w0 options extraParameters,
            let constructed := new_Logger w0 options extraParameters in
            context (ser_contextData
                       (serializer (fst (setSessionId constructed sessionId w)))) =
            context (contextData constructed))
      /\ (forall message args outputType w2,
            output this' message args outputType w2 =
            output this message args outputType w2))
  /\ (name (contextData this') = name (contextData this)
      /\ format this' = format this
      /\ log this' = log this
      /\ logFormat this' = logFormat this
      /\ logLevel this' = logLevel this
      /\ logLimit this' = logLimit this
      /\ logPatterns this' = logPatterns this
      /\ namespace this' = namespace this)
  /\ ((forall l, l < length (heap w) -> heap w' !! l = heap w !! l)
      /\ console w' = console w
      /\ env w' = env w
      /\ now w' = now w
      /\ domains w' = domains w).
Proof.
  cbv zeta. rewrite (setSessionId_unfold this sessionId w). cbv zeta. simpl.
  assert (Hnew : forall merged : object,
            <[length (heap w) := merged]> (session_store (heap w) sessionId)
              !! length (heap w) = Some merged).
  { intros merged. apply list_lookup_insert_eq.
    unfold session_store. rewrite !length_app; simpl; lia. }
  split; [|split; [|split]].
  - split; [reflexivity|]. rewrite Hnew; simpl. split.
    + rewrite lookup_set_prop, String.eqb_refl. reflexivity.
    + intros Hold. rewrite own_props_session_store by exact Hold. reflexivity.
  - split; [reflexivity|]. split.
    + intros w0 options extraParameters. reflexivity.
    + intros message args outputType w2. reflexivity.
  - repeat split.
  - split; [|repeat split].
    intros l Hl. rewrite list_lookup_insert_ne by lia.
    apply session_store_old, Hl.
Qed.

(** *** [Logger.current] *)

(** C6: outside every domain [current] returns a new logger with the
    default attributes; inside a domain whose [logger] property was never
    assigned, a world the application reaches by entering a new domain,
    it returns [undefined]. *)
Theorem current_in_domain_without_logger h out e t :
  let w := {| heap := h; console := out; env := e; now := t; domains := [] |} in
  current w = Some (new_Logger w VUndefined [])
  /\ logLevel (new_Logger w VUndefined []) =
     js_or (getenv (LOG_LEVEL load_env)) (levels.error loggerLevels)
  /\ reachable (domain_enter w)
  /\ current (domain_enter w) = None
  /\ (forall l, current (domain_bind l (domain_enter w)) = Some l).
Proof.
  intros w. split; [reflexivity|]. split; [reflexivity|]. split.
  - apply reachable_enter, reachable_start. reflexivity.
  - split; [reflexivity|]. intros l. reflexivity.
Qed.

End LoggerProperties.

(** ** Properties of the level filter *)

Lemma allow_rank t s :
  LevelFilter.allow t s = true <-> LevelFilter.rank t <= LevelFilter.rank s.
Proof. unfold LevelFilter.allow. apply Nat.leb_le. Qed.

Lemma suppressed_rank t s :
  LevelFilter.suppressed t s = true <-> LevelFilter.rank s < LevelFilter.rank t.
Proof.
  unfold LevelFilter.suppressed, LevelFilter.allow.
  rewrite negb_true_iff, Nat.leb_gt. reflexivity.
Qed.

(** C3, as written: "if an event at s1 is suppressed under threshold t then
    an event at s2 or any higher-ranked severity is never suppressed by the
    same threshold".  Under the threshold [error] a [debug] event is
    suppressed and so is a [log] event, of higher rank. *)
Lemma suppressed_below_does_not_allow_above :
  LevelFilter.rank LevelFilter.debug < LevelFilter.rank LevelFilter.log
  /\ LevelFilter.suppressed LevelFilter.error LevelFilter.debug = true
  /\ LevelFilter.suppressed LevelFilter.error LevelFilter.log = true
  /\ ~ (forall t s1 s2,
          LevelFilter.rank s1 < LevelFilter.rank s2 ->
          LevelFilter.suppressed t s1 = true ->
          forall s, LevelFilter.rank s2 <= LevelFilter.rank s ->
                    LevelFilter.suppressed t s = false).
Proof.
  split; [simpl; lia|]. split; [reflexivity|]. split; [reflexivity|].
  intros H.
  specialize (H LevelFilter.error LevelFilter.debug LevelFilter.log).
  simpl in H.
  specialize (H ltac:(lia) eq_refl LevelFilter.log ltac:(simpl; lia)).
  discriminate H.
Qed.

(** C3, amended: the filter allows a severity exactly when its rank is at
    least the threshold's; for [s1] of lower rank than [s2], if [s1] is
    suppressed under the threshold [s2], as it is, then that threshold
    suppresses no severity of the rank of [s2] or above; and under any
    threshold, a severity of higher rank than an allowed one is allowed. *)
Theorem allow_iff_rank_at_least_threshold :
  (forall t s,
     LevelFilter.allow t s = true <-> LevelFilter.rank s >= LevelFilter.rank t)
  /\ (forall s1 s2,
        LevelFilter.rank s1 < LevelFilter.rank s2 ->
        LevelFilter.suppressed s2 s1 = true ->
        forall s, LevelFilter.rank s2 <= LevelFilter.rank s ->
                  LevelFilter.suppressed s2 s = false)
  /\ (forall s1 s2,
        LevelFilter.rank s1 < LevelFilter.rank s2 ->
        LevelFilter.suppressed s2 s1 = true)
  /\ (forall t s1 s2,
        LevelFilter.rank s1 < LevelFilter.rank s2 ->
        LevelFilter.allow t s1 = true -> LevelFilter.allow t s2 = true).
Proof.
  split; [|split; [|split]].
  - intros t s. rewrite allow_rank. unfold ge. reflexivity.
  - intros s1 s2 _ _ s Hle. apply not_true_is_false. rewrite suppressed_rank. lia.
  - intros s1 s2 Hlt. apply suppressed_rank, Hlt.
  - intros t s1 s2 Hlt H1. apply allow_rank. apply allow_rank in H1. lia.
Qed.

(** ** Properties of the namespace matcher *)

Section NamespaceMatcherProperties.

Import NamespaceMatcher.

Lemma split_commas_cons s : exists t ts, split_commas s = t :: ts.
Proof.
  induction s as [|c s (t & ts & IH)]; simpl.
  - eexists _, _; reflexivity.
  - destruct (Ascii.eqb c ","); [eexists _, _; reflexivity|].
    rewrite IH. eexists _, _; reflexivity.
Qed.

(** [split_commas] cuts at the commas and nowhere else. *)
Lemma split_commas_join s : join_commas (split_commas s) = s.
Proof.
  induction s as [|c s IH]; simpl; [reflexivity|].
  destruct (split_commas_cons s) as (t & ts & Hs). rewrite Hs in *.
  destruct (Ascii.eqb c ",") eqn:E.
  - apply Ascii.eqb_eq in E; subst c.
    change (join_commas ("" :: t :: ts)) with ("" +:+ "," +:+ join_commas (t :: ts)).
    rewrite IH. reflexivity.
  - destruct ts as [|t' ts]; simpl in *; rewrite <- IH; reflexivity.
Qed.

Lemma split_commas_comma_free s :
  Forall (fun t => forall a b, t <> a +:+ "," +:+ b) (split_commas s).
Proof.
  induction s as [|c s IH]; simpl.
  - constructor; [|constructor]. intros [|x a] b; discriminate.
  - destruct (Ascii.eqb c ",") eqn:E.
    + constructor; [|exact IH]. intros [|x a] b; discriminate.
    + destruct (split_commas_cons s) as (t & ts & Hs). rewrite Hs in *.
      apply Forall_cons in IH as [Ht Hts].
      constructor; [|exact Hts].
      intros [|x a] b.
      * intros [= -> _]. rewrite Ascii.eqb_refl in E. discriminate.
      * rewrite string_app_cons. intros [= _ Hab]. exact (Ht a b Hab).
Qed.

Lemma strip_star_spec t p : strip_star t = Some p <-> t = p +:+ "*".
Proof.
  revert p. induction t as [|c t IH]; intros p.
  - simpl. split; [discriminate|]. destruct p; discriminate.
  - destruct t as [|d r].
    + simpl. destruct (Ascii.eqb c "*") eqn:E.
      * apply Ascii.eqb_eq in E; subst c. split.
        -- intros [= <-]. reflexivity.
        -- destruct p as [|x [|y p]]; [reflexivity | discriminate | discriminate].
      * split; [discriminate|].
        destruct p as [|x [|y p]]; intros [=]; subst.
        rewrite Ascii.eqb_refl in E. discriminate.
    + change (strip_star (String c (String d r)))
        with (String c <$> strip_star (String d r)).
      destruct (strip_star (String d r)) as [q|]; simpl.
      * split.
        -- intros [= <-]. rewrite string_app_cons. f_equal.
           apply IH. reflexivity.
        -- destruct p as [|x p]; [discriminate|].
           rewrite string_app_cons. intros [= <- Hp].
           apply IH in Hp. injection Hp as ->. reflexivity.
      * split; [discriminate|].
        destruct p as [|x p]; [discriminate|].
        rewrite string_app_cons. intros [= <- Hp].
        apply IH in Hp. discriminate.
Qed.

Lemma starts_with_spec p s :
  starts_with p s = true <-> exists suffix, s = p +:+ suffix.
Proof.
  revert s. induction p as [|a p IH]; intros s; simpl.
  - split; [intros _; exists s; reflexivity | reflexivity].
  - destruct s as [|b s].
    + split; [discriminate | intros [suffix H]; discriminate H].
    + rewrite andb_true_iff, Ascii.eqb_eq, IH. split.
      * intros [-> [suffix ->]]. exists suffix. reflexivity.
      * intros [suffix H]. rewrite string_app_cons in H.
        injection H as -> ->. split; [reflexivity | exists suffix; reflexivity].
Qed.

(** The compiled matcher of a term decides [matches]. *)
Lemma test_compile_term t ns : test ns (compile_term t) = true <-> matches t ns.
Proof.
  unfold compile_term, matches.
  destruct (strip_star t) as [p|] eqn:E; simpl.
  - apply strip_star_spec in E. rewrite starts_with_spec. split.
    + intros Hs. left. exists p. split; assumption.
    + intros [(q & Hq & Hs) | [Hno _]].
      * rewrite E in Hq. apply strip_star_spec in Hq.
        assert (strip_star (p +:+ "*") = Some p) as Hp by (apply strip_star_spec; reflexivity).
        rewrite Hp in Hq. injection Hq as <-. exact Hs.
      * destruct (Hno p E).
  - rewrite String.eqb_eq. split.
    + intros ->. right. split; [|reflexivity].
      intros p Hp. apply strip_star_spec in Hp. rewrite E in Hp. discriminate.
    + intros [(q & Hq & _) | [_ H]]; [|exact H].
      apply strip_star_spec in Hq. rewrite E in Hq. discriminate.
Qed.

Lemma exclusion_body_spec t b : exclusion_body t = Some b <-> t = "-" +:+ b.
Proof.
  destruct t as [|c r]; simpl.
  - split; discriminate.
  - destruct (Ascii.eqb c "-") eqn:E.
    + apply Ascii.eqb_eq in E; subst c. split; intros [= ->]; reflexivity.
    + split; [discriminate|]. intros [= -> _].
      rewrite Ascii.eqb_refl in E. discriminate.
Qed.

Lemma exclusion_body_none t : exclusion_body t = None <-> forall b, t <> "-" +:+ b.
Proof.
  split.
  - intros E b Hb. apply exclusion_body_spec in Hb. rewrite E in Hb. discriminate.
  - intros H. destruct (exclusion_body t) as [b|] eqn:E; [|reflexivity].
    apply exclusion_body_spec in E. destruct (H b E).
Qed.

Lemma In_terms e t : In t (terms e) <-> In t (split_commas e) /\ t <> "".
Proof.
  unfold terms, nonempty. rewrite filter_In, negb_true_iff, String.eqb_neq.
  reflexivity.
Qed.

Lemma In_inclusions ts m :
  In m (inclusions (compile_terms ts)) <->
  exists t, In t ts /\ exclusion_body t = None /\ m = compile_term t.
Proof.
  induction ts as [|t ts IH]; simpl.
  - split; [intros [] | intros (t & [] & _)].
  - destruct (exclusion_body t) as [b|] eqn:E; simpl; rewrite IH.
    + split.
      * intros (t' & Hin & Hrest). exists t'. split; [right; exact Hin | exact Hrest].
      * intros (t' & [<- | Hin] & Hnone & Hm).
        -- rewrite E in Hnone. discriminate.
        -- exists t'. repeat split; assumption.
    + split.
      * intros [<- | (t' & Hin & Hrest)].
        -- exists t. repeat split; [left; reflexivity | exact E].
        -- exists t'. split; [right; exact Hin | exact Hrest].
      * intros (t' & [<- | Hin] & Hnone & Hm).
        -- left. symmetry. exact Hm.
        -- right. exists t'. repeat split; assumption.
Qed.

Lemma In_exclusions ts m :
  In m (exclusions (compile_terms ts)) <->
  exists t b, In t ts /\ exclusion_body t = Some b /\ m = compile_term b.
Proof.
  induction ts as [|t ts IH]; simpl.
  - split; [intros [] | intros (t & b & [] & _)].
  - destruct (exclusion_body t) as [b|] eqn:E; simpl; rewrite IH.
    + split.
      * intros [<- | (t' & b' & Hin & Hrest)].
        -- exists t, b. repeat split; [left; reflexivity | exact E].
        -- exists t', b'. split; [right; exact Hin | exact Hrest].
      * intros (t' & b' & [<- | Hin] & Hsome & Hm).
        -- rewrite E in Hsome. injection Hsome as <-. left. symmetry. exact Hm.
        -- right. exists t', b'. repeat split; assumption.
    + split.
      * intros (t' & b' & Hin & Hrest). exists t', b'.
        split; [right; exact Hin | exact Hrest].
      * intros (t' & b' & [<- | Hin] & Hsome & Hm).
        -- rewrite E in Hsome. discriminate.
        -- exists t', b'. repeat split; assumption.
Qed.

(** The matcher compiled from an expression against the reading of the
    spec's words. *)
Lemma isEnabled_spec_enabled ns e :
  NamespaceMatcher.isEnabled ns (Some e) = true <-> spec_enabled ns e.
Proof.
  unfold NamespaceMatcher.isEnabled, enabled, spec_enabled, compile.
  rewrite andb_true_iff, negb_true_iff.
  assert (Hinc : (match inclusions (compile_terms (terms e)) with
                  | [] => true
                  | _ => existsb (test ns) (inclusions (compile_terms (terms e)))
                  end) = true <->
                 ((forall t, ~ inclusion_term e t)
                  \/ exists t, inclusion_term e t /\ matches t ns)).
  { split.
    - destruct (inclusions (compile_terms (terms e))) as [|m ms] eqn:E.
      + intros _. left. intros t (Hin & Hne & Hnot).
        assert (In (compile_term t) (inclusions (compile_terms (terms e)))) as Hm.
        { apply In_inclusions. exists t. split; [apply In_terms; split; assumption|].
          split; [apply exclusion_body_none; exact Hnot | reflexivity]. }
        rewrite E in Hm. destruct Hm.
      + rewrite <- E. intros Hex. right.
        apply existsb_exists in Hex as (m' & Hm' & Ht).
        apply In_inclusions in Hm' as (t & Hin & Hnone & ->).
        apply In_terms in Hin as [Hin Hne].
        exists t. split; [|apply test_compile_term; exact Ht].
        split; [exact Hin|]. split; [exact Hne|].
        apply exclusion_body_none; exact Hnone.
    - intros [Hnone | (t & (Hin & Hne & Hnot) & Hm)].
      + destruct (inclusions (compile_terms (terms e))) as [|m ms] eqn:E;
          [reflexivity|].
        assert (In m (inclusions (compile_terms (terms e)))) as Hm
          by (rewrite E; left; reflexivity).
        apply In_inclusions in Hm as (t & Hin & Hb & _).
        apply In_terms in Hin as [Hin Hne].
        destruct (Hnone t). split; [exact Hin|]. split; [exact Hne|].
        apply exclusion_body_none; exact Hb.
      + assert (existsb (test ns) (inclusions (compile_terms (terms e))) = true) as Hex.
        { apply existsb_exists. exists (compile_term t). split.
          - apply In_inclusions. exists t.
            split; [apply In_terms; split; assumption|].
            split; [apply exclusion_body_none; exact Hnot | reflexivity].
          - apply test_compile_term; exact Hm. }
        destruct (inclusions (compile_terms (terms e))); [reflexivity | exact Hex]. }
  rewrite Hinc. clear Hinc.
  apply and_iff_compat_l.
  rewrite <- not_true_iff_false, existsb_exists. split.
  - intros Hno b Hb Hm. apply Hno. exists (compile_term b). split.
    + apply In_exclusions. exists ("-" +:+ b), b. split.
      * apply In_terms. split; [exact Hb | discriminate].
      * split; [apply exclusion_body_spec; reflexivity | reflexivity].
    + apply test_compile_term; exact Hm.
  - intros Hno (m & Hin & Ht).
    apply In_exclusions in Hin as (t & b & Hin & Hb & ->).
    apply exclusion_body_spec in Hb; subst t.
    apply In_terms in Hin as [Hin _].
    apply (Hno b Hin). apply test_compile_term; exact Ht.
Qed.

(** C2: a namespace is enabled exactly when the expression has no inclusion
    term or one of them matches it, and no exclusion term matches it, a
    term ending in [*] matching the namespaces that start with what
    precedes it and any other term matching itself only; an absent or empty
    expression enables every namespace; under "api,-api:child" the
    namespace "api" is enabled, "api:child" and "other" are not. *)
Theorem isEnabled_inclusions_and_exclusions :
  (forall ns e,
     NamespaceMatcher.isEnabled ns (Some e) = true <->
     ((forall t, ~ inclusion_term e t)
      \/ exists t, inclusion_term e t /\ matches t ns)
     /\ forall b, exclusion_term e b -> ~ matches b ns)
  /\ (forall ns, NamespaceMatcher.isEnabled ns None = true)
  /\ (forall ns, NamespaceMatcher.isEnabled ns (Some "") = true)
  /\ NamespaceMatcher.isEnabled "api" (Some "api,-api:child") = true
  /\ NamespaceMatcher.isEnabled "api:child" (Some "api,-api:child") = false
  /\ NamespaceMatcher.isEnabled "other" (Some "api,-api:child") = false.
Proof.
  split; [exact isEnabled_spec_enabled|].
  repeat split.
Qed.

End NamespaceMatcherProperties.

(** ** Properties of the serializer *)

Section SerializerProperties.

Import SerializerModel.






Lemma decycle_primitive fuel (h : JS.heap) ancestors v :
  (forall l, v <> VRef l) -> is_Some (decycle fuel h ancestors v).
Proof.
  intros Hv. destruct fuel, v; simpl; try (eexists; reflexivity);
    destruct (Hv l eq_refl).
Qed.




(** The object that refers to itself resolves to a tree. *)
Example resolve_example_store :
  resolve example_store (VRef 0) = Some example_tree.
Proof. reflexivity. Qed.

(** The exception of the plain traversal on the object that refers to
    itself. *)
Example traverse_plain_example_store :
  traverse_plain 1 example_store [] (VRef 0) = None.
Proof. reflexivity. Qed.







Section EmissionNeverThrows.

Variable encode : tree -> string.
Variable truncation_marker : string.
Variable severity_of : value -> LevelFilter.Severity.
Variable limit_of : value -> nat.
Variable M : Modules.

Local Abbreviation spec_logger :=
  (with_spec_serializer encode truncation_marker severity_of limit_of M).


End EmissionNeverThrows.





(** The line written for the request that refers to itself, as message,
    context and extra fields: each with the marker in the place of the
    reference. *)
Example cyclic_request_is_written :
  try_output
    (T := with_spec_serializer json example_marker EdgeExamples.example_severity
            EdgeExamples.example_limit Example.example_modules)
    EdgeExamples.cyclic_logger (VRef 0) (VRef 0) (VStr "error")
    EdgeExamples.cyclic_world
  = Some (console_log
            (json (TObject [ ("timestamp", TStr "2019-03-01T12:00:00.000Z");
                             ("severity", TStr "error");
                             ("message", example_tree);
                             ("context", example_tree);
                             ("extraFields", example_tree) ]))
            EdgeExamples.cyclic_world).
Proof. vm_compute. reflexivity. Qed.

Lemma substring_length (n : nat) (s : string) :
  n <= String.length s -> String.length (substring 0 n s) = n.
Proof.
  revert s. induction n as [|n IH]; intros s Hn.
  - destruct s; reflexivity.
  - destruct s as [|c s]; simpl in *; [lia|].
    rewrite IH by lia. reflexivity.
Qed.

Lemma truncate_length marker (sizeLimit : nat) (bytes : string) :
  sizeLimit <= String.length bytes ->
  String.length (truncate marker sizeLimit bytes) = sizeLimit + String.length marker.
Proof.
  intros Hn. unfold truncate.
  rewrite string_app_length, substring_length by exact Hn. reflexivity.
Qed.

Lemma is_debug_spec severity : is_debug severity = true <-> severity = LevelFilter.debug.
Proof. destruct severity; simpl; split; congruence. Qed.

(** Size-bounding of one payload, case by case. *)
Lemma bound_cases encode marker severity (sizeLimit : nat) (t : tree) :
  let p := bound encode marker severity sizeLimit t in
  (severity = LevelFilter.debug -> sizeLimit < String.length (encode t) ->
     p = Truncated (substring 0 sizeLimit (encode t) +:+ marker)
     /\ payload_size encode p = sizeLimit + String.length marker)
  /\ (severity <> LevelFilter.debug -> p = Whole t)
  /\ (String.length (encode t) <= sizeLimit -> p = Whole t).
Proof.
  unfold bound. split; [|split].
  - intros -> Hlt. simpl.
    apply Nat.ltb_lt in Hlt as Hb. rewrite Hb. split; [reflexivity|].
    unfold payload_size; simpl. apply truncate_length. lia.
  - intros Hne. destruct (is_debug severity) eqn:E; [|reflexivity].
    apply is_debug_spec in E. contradiction.
  - intros Hle. apply Nat.ltb_ge in Hle. rewrite Hle, andb_false_r. reflexivity.
Qed.

(** C4: the event keeps the message and the timestamp as they are; at the
    debug severity a payload (context or extra fields) whose serialized
    form is longer than [sizeLimit] bytes becomes its first [sizeLimit]
    bytes followed by the truncation marker, of [sizeLimit] plus the
    marker's length bytes in all; at any other severity, and within the
    limit, the payload is whole. *)
Theorem debug_payload_truncated_by_bytes encode marker (h : JS.heap) now
    context sizeLimit message extraFields severity c e :
  resolve h context = Some c -> resolve h extraFields = Some e ->
  exists event,
    serialize encode marker h now context sizeLimit message extraFields severity
      = Some event
    /\ ev_message event = message
    /\ ev_timestamp event = now
    /\ forall t p,
         (t, p) ∈ [(c, ev_context event); (e, ev_extraFields event)] ->
         (severity = LevelFilter.debug -> sizeLimit < String.length (encode t) ->
            p = Truncated (substring 0 sizeLimit (encode t) +:+ marker)
            /\ payload_size encode p = sizeLimit + String.length marker
            /\ payload_size encode p <= sizeLimit + String.length marker)
         /\ (severity <> LevelFilter.debug -> p = Whole t)
         /\ (String.length (encode t) <= sizeLimit -> p = Whole t).
Proof.
  intros Hc He. unfold serialize. rewrite Hc, He.
  eexists. split; [reflexivity|]. simpl.
  split; [reflexivity|]. split; [reflexivity|].
  intros t p Hin.
  assert (p = bound encode marker severity sizeLimit t) as ->.
  { apply elem_of_cons in Hin as [[= -> ->] | Hin]; [reflexivity|].
    apply list_elem_of_singleton in Hin as [= -> ->]. reflexivity. }
  destruct (bound_cases encode marker severity sizeLimit t) as (Hd & Hn & Hs).
  split; [|split; assumption].
  intros Hsev Hlt. destruct (Hd Hsev Hlt) as [Hp Hsize].
  split; [exact Hp|]. split; [exact Hsize | rewrite Hsize; reflexivity].
Qed.

Lemma debug_payload_truncated_by_bytes_witness :
  exists event,
    serialize json example_marker example_store "2019-03-01T12:00:00.000Z"
      (VRef 0) 10 (VStr "started") (VRef 0) LevelFilter.debug = Some event
    /\ ev_message event = VStr "started"
    /\ ev_timestamp event = "2019-03-01T12:00:00.000Z"
    /\ forall t p,
         (t, p) ∈ [(example_tree, ev_context event);
                   (example_tree, ev_extraFields event)] ->
         (LevelFilter.debug = LevelFilter.debug ->
          10 < String.length (json t) ->
            p = Truncated (substring 0 10 (json t) +:+ example_marker)
            /\ payload_size json p = 10 + String.length example_marker
            /\ payload_size json p <= 10 + String.length example_marker)
         /\ (LevelFilter.debug <> LevelFilter.debug -> p = Whole t)
         /\ (String.length (json t) <= 10 -> p = Whole t).
Proof.
  exact (debug_payload_truncated_by_bytes json example_marker example_store
           "2019-03-01T12:00:00.000Z" (VRef 0) 10 (VStr "started") (VRef 0)
           LevelFilter.debug example_tree example_tree eq_refl eq_refl).
Defined.

(** The truncated context of the example is 10 bytes and the marker. *)
Example truncated_example_size :
  payload_size json (bound json example_marker LevelFilter.debug 10 example_tree)
  = 10 + String.length example_marker
  /\ bound json example_marker LevelFilter.log 10 example_tree = Whole example_tree.
Proof. split; reflexivity. Qed.

End SerializerProperties.

(** ** The scenario of the specification *)

Section Scenario.

Import Example.

Example scenario_logger_fields :
  namespace scenario_logger = VStr "db"
  /\ logPatterns scenario_logger = VStr "db,-db:verbose"
  /\ logLevel scenario_logger = VStr "warn"
  /\ logLimit scenario_logger = VNum 7000.
Proof. repeat split. Qed.

(** [info] is suppressed by the level although the namespace matches. *)
Example scenario_info_suppressed :
  console (info (M := example_modules) scenario_logger (VStr "query") VUndefined
             scenario_world) = [].
Proof. reflexivity. Qed.

(** [warn] emits. *)
Example scenario_warn_emits :
  console (warn (M := example_modules) scenario_logger (VStr "query") VUndefined
             scenario_world) = ["warn db query"].
Proof. reflexivity. Qed.

(** A child of the scenario's logger is out of the pattern and has the
    default threshold. *)
Example scenario_child :
  let c := fst (createChildLogger (M := example_modules) scenario_logger
                  (VStr "verbose") scenario_world) in
  namespace c = VStr "db:verbose"
  /\ logLevel c = VStr "error"
  /\ isEnabled (Modules := example_modules) [] (namespace c) (logPatterns c)
     = VBool false.
Proof. repeat split. Qed.

End Scenario.

(** * Further properties of [logger.js] *)

(** ** [prettyPrint] *)

Lemma lookup_omit k (o : object) keys :
  lookup_prop k (omit o keys) =
  if bool_decide (k ∈ keys) then None else lookup_prop k o.
Proof.
  unfold omit. induction o as [|[k0 v0] o IH]; simpl.
  - destruct (bool_decide (k ∈ keys)); reflexivity.
  - rewrite filter_cons. simpl. destruct (decide (k0 ∉ keys)) as [Hout|Hin]; simpl.
    + rewrite IH. destruct (String.eqb k k0) eqn:E; [|reflexivity].
      apply String.eqb_eq in E; subst k0.
      rewrite bool_decide_eq_false_2 by exact Hout. reflexivity.
    + rewrite IH. destruct (String.eqb k k0) eqn:E; [|reflexivity].
      apply String.eqb_eq in E; subst k0.
      rewrite bool_decide_eq_true_2; [reflexivity|].
      destruct (decide (k ∈ keys)); [assumption | contradiction].
Qed.

Lemma indent_lines_app (a b : string) :
  indent_lines (a +:+ b) = indent_lines a +:+ indent_lines b.
Proof.
  induction a as [|c a IH]; [reflexivity|].
  rewrite string_app_cons. simpl.
  destruct (Ascii.eqb c (ascii_of_nat 10)).
  - rewrite IH. unfold nl, tab. rewrite !string_app_cons. reflexivity.
  - rewrite IH, string_app_cons. reflexivity.
Qed.

(** X1: every newline of the rendered body is followed by a tab in what
    [prettyPrint] prints, so each line of the body starts with one; the
    replacement works piece by piece, and a body of one line is printed as
    it is. *)
Theorem indent_lines_tab_after_newline (s : string) :
  (forall i,
     String.get i (indent_lines s) = Some (ascii_of_nat 10) ->
     String.get (S i) (indent_lines s) = Some (ascii_of_nat 9))
  /\ (forall a b, indent_lines (a +:+ b) = indent_lines a +:+ indent_lines b)
  /\ ((forall i, String.get i s <> Some (ascii_of_nat 10)) -> indent_lines s = s).
Proof.
  split; [|split].
  - induction s as [|c s IH]; intros i; simpl.
    + discriminate.
    + destruct (Ascii.eqb c (ascii_of_nat 10)) eqn:E.
      * unfold nl, tab. rewrite !string_app_cons. simpl.
        destruct i as [|[|i]]; simpl.
        -- reflexivity.
        -- intros [=].
        -- apply IH.
      * destruct i as [|i]; simpl.
        -- intros [= ->]. rewrite Ascii.eqb_refl in E. discriminate.
        -- apply IH.
  - apply indent_lines_app.
  - induction s as [|c s IH]; intros Hno; simpl; [reflexivity|].
    destruct (Ascii.eqb c (ascii_of_nat 10)) eqn:E.
    + apply Ascii.eqb_eq in E; subst c. destruct (Hno 0). reflexivity.
    + rewrite IH; [reflexivity|]. intros i. apply (Hno (S i)).
Qed.

(** A body of two lines. *)
Example indent_lines_two_lines :
  indent_lines ("level: warn" +:+ nl +:+ "namespace: db")
  = "level: warn" +:+ nl +:+ tab +:+ "namespace: db".
Proof. reflexivity. Qed.

Section PrettyPrintProperties.

Context {M : Modules}.

(** X2: [prettyPrint] prints the timestamp and the message in the header
    and renders the other properties only, each as the event has it and in
    the event's order; an event without timestamp or message has
    [undefined] in the header. *)
Theorem prettyPrint_header_and_details h (event : object) :
  exists details : object,
    prettyPrint h event =
      nl +:+ ("[" +:+ to_string (get "timestamp" event) +:+ "]: ["
                  +:+ to_string (get "message" event) +:+ "]")
         +:+ nl +:+ tab
         +:+ indent_lines (render h details PrettyJsonDefaultOptions)
         +:+ nl +:+ nl
    /\ lookup_prop "timestamp" details = None
    /\ lookup_prop "message" details = None
    /\ (forall k, k <> "timestamp" -> k <> "message" ->
          lookup_prop k details = lookup_prop k event)
    /\ details `sublist_of` event
    /\ (lookup_prop "timestamp" event = None ->
        to_string (get "timestamp" event) = "undefined")
    /\ (lookup_prop "message" event = None ->
        to_string (get "message" event) = "undefined").
Proof.
  exists (omit event ["timestamp"; "message"]).
  split; [reflexivity|].
  split; [rewrite lookup_omit; reflexivity|].
  split; [rewrite lookup_omit; reflexivity|].
  split.
  - intros k Hts Hmsg. rewrite lookup_omit.
    rewrite bool_decide_eq_false_2; [reflexivity|].
    intros Hin. apply elem_of_cons in Hin as [-> | Hin]; [congruence|].
    apply list_elem_of_singleton in Hin. congruence.
  - split; [apply sublist_filter|].
    split; intros Hnone; unfold get; rewrite Hnone; reflexivity.
Qed.

End PrettyPrintProperties.

(** ** [normalizeArguments] and the constructor *)

Lemma lookup_prop_absent k (o : object) : ~ In k (map fst o) -> lookup_prop k o = None.
Proof.
  induction o as [|[k0 v0] o IH]; simpl; [reflexivity|].
  intros Hout. destruct (String.eqb k k0) eqn:E.
  - apply String.eqb_eq in E. destruct Hout. left. symmetry. exact E.
  - apply IH. intros Hin. apply Hout. right. exact Hin.
Qed.

(** With distinct property names in the source, each of its properties
    wins over the target's. *)
Lemma lookup_assign_distinct k (source : object) : forall target : object,
  NoDup (map fst source) ->
  lookup_prop k (assign target source) =
  match lookup_prop k source with
  | Some v => Some v
  | None => lookup_prop k target
  end.
Proof.
  induction source as [|[k0 v0] s IH]; intros target Hnd; [reflexivity|].
  simpl in Hnd. apply NoDup_cons in Hnd as [Hout Hnd].
  change (assign target ((k0, v0) :: s)) with (assign (set_prop k0 v0 target) s).
  rewrite IH by exact Hnd. simpl. rewrite lookup_set_prop.
  destruct (String.eqb k k0) eqn:E; [|reflexivity].
  apply String.eqb_eq in E; subst k0.
  rewrite lookup_prop_absent; [reflexivity|].
  intros Hin. apply Hout, list_elem_of_In, Hin.
Qed.

Section ConstructorProperties.

Context {M : Modules}.

Lemma normalizeArguments_options (h : JS.heap) l (o : object) k :
  h !! l = Some o -> NoDup (map fst o) ->
  get k (normalizeArguments h (VRef l) []) =
  match lookup_prop k o with
  | Some v => v
  | None => get k DEFAULT_LOGGER_ATTRIBUTES
  end.
Proof.
  intros Hl Hnd. unfold normalizeArguments; simpl. rewrite Hl; simpl.
  unfold get. rewrite lookup_assign_distinct by exact Hnd.
  destruct (lookup_prop k o); reflexivity.
Qed.

(** X3: with an options object and no further argument, each attribute of
    the logger is the option of that name when the object has it, even
    with the value [undefined], and the default otherwise; the context and
    the log format have no default. *)
Theorem options_override_defaults w l (o : object) :
  heap w !! l = Some o -> NoDup (map fst o) ->
  let this := new_Logger w (VRef l) [] in
  let pick k :=
    match lookup_prop k o with
    | Some v => v
    | None => get k DEFAULT_LOGGER_ATTRIBUTES
    end in
  logLevel this = pick "logLevel"
  /\ logLimit this = pick "logLimit"
  /\ logPatterns this = pick "logPatterns"
  /\ namespace this = pick "namespace"
  /\ context (contextData this) = get "context" o
  /\ logFormat this = get "logFormat" o
  /\ ser_contextData (serializer this) = contextData this.
Proof.
  intros Hl Hnd this pick. unfold this, new_Logger; simpl.
  rewrite !(normalizeArguments_options _ l o) by assumption.
  repeat split; unfold get; destruct (lookup_prop _ o); reflexivity.
Qed.

(** X4: in the positional form, with a truthy context and at least one
    further argument, the logger takes namespace, patterns, limit and
    level from the positions, [undefined] for a position left out: neither
    the defaults nor the environment fill them in. *)
Theorem positional_form_takes_positions w options extraParameters :
  truthy options = true -> extraParameters <> [] ->
  let this := new_Logger w options extraParameters in
  context (contextData this) = options
  /\ namespace this = nth 0 extraParameters VUndefined
  /\ logPatterns this = nth 1 extraParameters VUndefined
  /\ logLimit this = nth 2 extraParameters VUndefined
  /\ logLevel this = nth 3 extraParameters VUndefined
  /\ logFormat this = VUndefined
  /\ ser_namespace (serializer this) = nth 0 extraParameters VUndefined
  /\ ser_logLimit (serializer this) = nth 2 extraParameters VUndefined.
Proof.
  intros Ht Hne this. unfold this, new_Logger, normalizeArguments.
  rewrite Ht; simpl.
  destruct extraParameters as [|x xs]; [contradiction|]. simpl.
  repeat split.
Qed.

(** X5: with a falsy first argument ([undefined], [null], [false], 0 or
    the empty string) the constructor drops every further argument: the
    logger is the one of [new Logger()]. *)
Theorem falsy_options_drop_positions w options extraParameters :
  truthy options = false ->
  new_Logger w options extraParameters = new_Logger w VUndefined []
  /\ namespace (new_Logger w options extraParameters) = VStr ""
  /\ context (contextData (new_Logger w options extraParameters)) = VUndefined.
Proof.
  intros Hf. unfold new_Logger, normalizeArguments. rewrite Hf; simpl.
  repeat split.
Qed.

Lemma truthy_getenv x :
  truthy (getenv x) = true <-> exists s, x = Some s /\ s <> "".
Proof.
  destruct x as [s|]; simpl.
  - rewrite negb_true_iff, String.eqb_neq. split.
    + intros Hs. exists s. split; [reflexivity | exact Hs].
    + intros (s' & [= <-] & Hs). exact Hs.
  - split; [discriminate | intros (s & [=] & _)].
Qed.

(** X6: the logger prints with [prettyPrint] exactly when
    [LOGS_PRETTY_PRINT] is set to a non-empty string, whatever the string
    and whatever the arguments of the constructor; otherwise it prints
    with [stringify]. *)
Theorem format_follows_LOGS_PRETTY_PRINT w options extraParameters :
  (format (new_Logger w options extraParameters) = prettyPrint_fn <->
   exists s, LOGS_PRETTY_PRINT (env w) = Some s /\ s <> "")
  /\ (format (new_Logger w options extraParameters) = stringify_fn <->
      LOGS_PRETTY_PRINT (env w) = None \/ LOGS_PRETTY_PRINT (env w) = Some "").
Proof.
  unfold new_Logger; simpl. split.
  - rewrite <- truthy_getenv.
    destruct (truthy (getenv (LOGS_PRETTY_PRINT (env w)))); split; congruence.
  - destruct (LOGS_PRETTY_PRINT (env w)) as [s|]; simpl.
    + destruct (String.eqb s "") eqn:E; simpl.
      * apply String.eqb_eq in E; subst s. split; [right; reflexivity | reflexivity].
      * apply String.eqb_neq in E. split; [discriminate|].
        intros [[=] | [= ->]]. contradiction.
    + split; [left; reflexivity | reflexivity].
Qed.

(** X7: the attributes of [new Logger()]: a variable of the environment
    that is unset or empty leaves the built-in default ([loggerLevels.error],
    the number 7000, no pattern); one that is set is taken as the string it
    is, also for the limit; the namespace is empty and there is no
    context. *)
Theorem default_logger_attributes w :
  let this := new_Logger w VUndefined [] in
  logLevel this =
    match LOG_LEVEL load_env with
    | Some s => if String.eqb s "" then levels.error loggerLevels else VStr s
    | None => levels.error loggerLevels
    end
  /\ logLimit this =
    match LOG_LIMIT load_env with
    | Some s => if String.eqb s "" then VNum 7000 else VStr s
    | None => VNum 7000
    end
  /\ logPatterns this =
    match LOG_NAMESPACES load_env with
    | Some s => if String.eqb s "" then VUndefined else VStr s
    | None => VUndefined
    end
  /\ namespace this = VStr ""
  /\ context (contextData this) = VUndefined
  /\ name (contextData this) = getenv (APP_NAME (env w))
  /\ ser_logLimit (serializer this) = logLimit this.
Proof.
  unfold new_Logger, normalizeArguments; simpl. unfold get; simpl.
  unfold js_or.
  destruct (LOG_LEVEL load_env) as [a|], (LOG_LIMIT load_env) as [b|],
    (LOG_NAMESPACES load_env) as [c|]; simpl;
    try destruct (String.eqb a ""); try destruct (String.eqb b "");
    try destruct (String.eqb c ""); simpl; repeat split.
Qed.

End ConstructorProperties.

Lemma options_override_defaults_witness :
  let this :=
    new_Logger (M := Example.example_modules) EdgeExamples.undefined_level_world
      (VRef 0) [] in
  logLevel this = VUndefined
  /\ logLimit this = VNum 7000
  /\ logPatterns this = VUndefined
  /\ namespace this = VStr "db"
  /\ context (contextData this) = VUndefined
  /\ logFormat this = VUndefined
  /\ ser_contextData (serializer this) = contextData this.
Proof.
  refine (options_override_defaults (M := Example.example_modules)
            EdgeExamples.undefined_level_world 0
            [("logLevel", VUndefined); ("namespace", VStr "db")] eq_refl _).
  simpl. apply NoDup_cons_2; [|apply NoDup_singleton].
  intros H. apply list_elem_of_singleton in H. discriminate H.
Defined.

Lemma positional_form_takes_positions_witness :
  let this :=
    new_Logger (M := Example.example_modules) Example.scenario_world
      (VStr "request") [VStr "db"] in
  context (contextData this) = VStr "request"
  /\ namespace this = VStr "db"
  /\ logPatterns this = VUndefined
  /\ logLimit this = VUndefined
  /\ logLevel this = VUndefined
  /\ logFormat this = VUndefined
  /\ ser_namespace (serializer this) = VStr "db"
  /\ ser_logLimit (serializer this) = VUndefined.
Proof.
  refine (positional_form_takes_positions (M := Example.example_modules)
            Example.scenario_world (VStr "request") [VStr "db"] eq_refl _).
  discriminate.
Defined.

Lemma falsy_options_drop_positions_witness :
  new_Logger (M := Example.example_modules) Example.scenario_world VNull
    [VStr "db"; VStr "db,-db:verbose"]
  = new_Logger (M := Example.example_modules) Example.scenario_world VUndefined []
  /\ namespace (new_Logger (M := Example.example_modules) Example.scenario_world VNull
                  [VStr "db"; VStr "db,-db:verbose"]) = VStr ""
  /\ context (contextData
                (new_Logger (M := Example.example_modules) Example.scenario_world VNull
                   [VStr "db"; VStr "db,-db:verbose"])) = VUndefined.
Proof.
  exact (falsy_options_drop_positions (M := Example.example_modules)
           Example.scenario_world VNull [VStr "db"; VStr "db,-db:verbose"] eq_refl).
Defined.

(** ** The emit methods and [output] *)

Section EmissionProperties.

Context {M : Modules}.

(** X10: the comparison with [true] is strict: when the level filter or
    the matcher answers anything else, a truthy value such as 1 included,
    [output] writes nothing. *)
Theorem only_true_lets_output_through this message args outputType w :
  logLevelFilter (heap w) (logLevel this) (default_outputType outputType) <> VBool true
  \/ isEnabled (heap w) (namespace this) (logPatterns this) <> VBool true ->
  shouldSuppressOutput this (default_outputType outputType) w = true
  /\ output this message args outputType w = w.
Proof.
  intros Hnot.
  assert (allowed this (default_outputType outputType) w = false) as Hno.
  { unfold allowed. apply andb_false_iff.
    destruct Hnot as [H | H]; [left | right];
      match goal with
      | |- is_true ?v = false => destruct v as [| |[]| | |]; try reflexivity
      end; contradiction. }
  split.
  - rewrite suppress_not_allowed, Hno. reflexivity.
  - rewrite output_cases, Hno. reflexivity.
Qed.

(** X11: an emit method whose level is missing from the table of levels
    hands [undefined] to [output] and so emits at the default severity:
    it behaves as [info]. *)
Theorem method_without_level_is_info m this message args w :
  method_severity m = VUndefined ->
  invoke m this message args w = info this message args w.
Proof.
  intros Hm.
  change (info this message args w) with (invoke info_method this message args w).
  rewrite !invoke_output, Hm. reflexivity.
Qed.

End EmissionProperties.

Lemma only_true_lets_output_through_witness :
  shouldSuppressOutput (M := EdgeExamples.modules_answering_one)
    Example.scenario_logger (VStr "warn") Example.scenario_world = true
  /\ output (M := EdgeExamples.modules_answering_one) Example.scenario_logger
       (VStr "query") VNull (VStr "warn") Example.scenario_world
     = Example.scenario_world.
Proof.
  refine (only_true_lets_output_through (M := EdgeExamples.modules_answering_one)
            Example.scenario_logger (VStr "query") VNull (VStr "warn")
            Example.scenario_world _).
  left. discriminate.
Defined.

Lemma method_without_level_is_info_witness :
  invoke (M := EdgeExamples.modules_without_warn) warn_method Example.scenario_logger
    (VStr "query") VUndefined Example.scenario_world
  = info (M := EdgeExamples.modules_without_warn) Example.scenario_logger
      (VStr "query") VUndefined Example.scenario_world.
Proof.
  exact (method_without_level_is_info (M := EdgeExamples.modules_without_warn)
           warn_method Example.scenario_logger (VStr "query") VUndefined
           Example.scenario_world eq_refl).
Defined.

(** ** [setSessionId] and [createChildLogger] together *)

Lemma set_prop_absent k v (o : object) :
  lookup_prop k o = None -> set_prop k v o = o ++ [(k, v)].
Proof.
  induction o as [|[k0 v0] o IH]; simpl; [reflexivity|].
  destruct (String.eqb k k0); [discriminate|].
  intros Hnone. rewrite IH by exact Hnone. reflexivity.
Qed.

Lemma set_prop_present k v (o : object) :
  lookup_prop k o <> None -> map fst (set_prop k v o) = map fst o.
Proof.
  induction o as [|[k0 v0] o IH]; simpl; [congruence|].
  destruct (String.eqb k k0); simpl; [reflexivity|].
  intros Hsome. rewrite IH by exact Hsome. reflexivity.
Qed.

Lemma set_prop_same k v (o : object) :
  lookup_prop k o = Some v -> set_prop k v o = o.
Proof.
  induction o as [|[k0 v0] o IH]; simpl; [discriminate|].
  destruct (String.eqb k k0).
  - intros [= ->]. reflexivity.
  - intros Hsome. rewrite IH by exact Hsome. reflexivity.
Qed.

Lemma lookup_prop_present k (o : object) :
  In k (map fst o) -> lookup_prop k o <> None.
Proof.
  induction o as [|[k0 v0] o IH]; simpl; [intros []|].
  intros [-> | Hin].
  - rewrite String.eqb_refl. discriminate.
  - destruct (String.eqb k k0); [discriminate | apply IH, Hin].
Qed.

Lemma set_prop_keys_distinct k v (o : object) :
  NoDup (map fst o) -> NoDup (map fst (set_prop k v o)).
Proof.
  intros Hnd. destruct (lookup_prop k o) as [x|] eqn:E.
  - rewrite set_prop_present by congruence. exact Hnd.
  - rewrite set_prop_absent by exact E. rewrite map_app; simpl.
    apply NoDup_app. split; [exact Hnd|]. split; [|apply NoDup_singleton].
    intros x Hx Hk. apply list_elem_of_singleton in Hk; subst x.
    apply list_elem_of_In, lookup_prop_present in Hx. contradiction.
Qed.

Lemma assign_keys_distinct (source : object) : forall target : object,
  NoDup (map fst target) -> NoDup (map fst (assign target source)).
Proof.
  induction source as [|[k v] s IH]; intros target Hnd; [exact Hnd|].
  change (assign target ((k, v) :: s)) with (assign (set_prop k v target) s).
  apply IH, set_prop_keys_distinct, Hnd.
Qed.

(** Copying an object with distinct property names gives the object. *)
Lemma assign_copy (source : object) : forall target : object,
  NoDup (map fst (target ++ source)) -> assign target source = target ++ source.
Proof.
  induction source as [|[k v] s IH]; intros target Hnd.
  - rewrite app_nil_r. reflexivity.
  - change (assign target ((k, v) :: s)) with (assign (set_prop k v target) s).
    assert (lookup_prop k target = None) as Hk.
    { apply lookup_prop_absent. intros Hin.
      rewrite map_app in Hnd. apply NoDup_app in Hnd as (_ & Hdis & _).
      apply (Hdis k); [apply list_elem_of_In, Hin | simpl; left]. }
    rewrite set_prop_absent by exact Hk.
    rewrite IH; rewrite <- app_assoc; [reflexivity | exact Hnd].
Qed.

Lemma string_app_empty (a b : string) : a +:+ b = "" -> a = "" /\ b = "".
Proof.
  destruct a as [|x a]; [intros H; split; [reflexivity | exact H]|].
  rewrite string_app_cons. discriminate.
Qed.

Section LifecycleProperties.

Context {M : Modules}.

Lemma child_store this suffix w :
  exists literal : object,
    heap (snd (createChildLogger this suffix w)) = heap w ++ [literal].
Proof. unfold createChildLogger, new_object, alloc; simpl. eexists; reflexivity. Qed.

Lemma setSessionId_context this sessionId w :
  let this' := fst (setSessionId this sessionId w) in
  let w' := snd (setSessionId this sessionId w) in
  context (contextData this') = VRef (length (heap w))
  /\ length (heap w) < length (heap w')
  /\ own_props (heap w') (context (contextData this')) =
     set_prop "sessionId" sessionId
       (assign [] (own_props (session_store (heap w) sessionId)
                     (context (contextData this)))).
Proof.
  cbv zeta. rewrite setSessionId_unfold. cbv zeta. simpl.
  assert (length (heap w) < length (session_store (heap w) sessionId)) as Hlen.
  { unfold session_store. rewrite !length_app; simpl; lia. }
  split; [reflexivity|]. split.
  - rewrite length_insert. exact Hlen.
  - rewrite list_lookup_insert_eq by exact Hlen. reflexivity.
Qed.

(** X12: the namespace of a child's child is the namespace of the child
    made in one step with the two suffixes joined by a colon, unless the
    first suffix and the parent's namespace are both empty, where the
    child's child has the second suffix alone; context and patterns come
    down from the parent. *)
Theorem grandchild_namespace this (a b : string) w w1 w2 :
  let c := fst (createChildLogger this (VStr a) w) in
  let g := fst (createChildLogger c (VStr b) w1) in
  (truthy (namespace this) = true \/ a <> "" ->
   namespace g =
   namespace (fst (createChildLogger this (VStr (a +:+ ":" +:+ b)) w2)))
  /\ (truthy (namespace this) = false -> a = "" -> namespace g = VStr b)
  /\ context (contextData g) = context (contextData this)
  /\ logPatterns g = logPatterns this.
Proof.
  intros c g.
  destruct (child_fields this (VStr a) w) as (Hc & Hcc & Hcp & _).
  destruct (child_fields c (VStr b) w1) as (Hg & Hgc & Hgp & _).
  destruct (child_fields this (VStr (a +:+ ":" +:+ b)) w2) as (Hd & _).
  fold c in Hc, Hcc, Hcp. fold g in Hg, Hgc, Hgp.
  split; [|split; [|split]].
  - intros Hne. rewrite Hg, Hd, Hc. simpl.
    set (prefix := if truthy (namespace this)
                   then to_string (namespace this) +:+ ":" else "").
    destruct (String.eqb (prefix +:+ a) "") eqn:E; simpl.
    + exfalso. apply String.eqb_eq, string_app_empty in E as [Hp Ha].
      destruct Hne as [Ht | Ha']; [|contradiction].
      unfold prefix in Hp. rewrite Ht in Hp.
      apply string_app_empty in Hp as [_ Hp]. discriminate Hp.
    + rewrite !string_app_assoc. reflexivity.
  - intros Hf ->. rewrite Hg, Hc, Hf. reflexivity.
  - rewrite Hgc, Hcc. reflexivity.
  - rewrite Hgp, Hcp. reflexivity.
Qed.

(** X13: a child made after [setSessionId] has a serializer that holds the
    new context, with the session identifier, while the serializer of the
    logger itself still holds the old one. *)
Theorem child_after_setSessionId_has_session this sessionId suffix w :
  let this' := fst (setSessionId this sessionId w) in
  let w' := snd (setSessionId this sessionId w) in
  let c := fst (createChildLogger this' suffix w') in
  let w'' := snd (createChildLogger this' suffix w') in
  context (ser_contextData (serializer c)) = context (contextData this')
  /\ lookup_prop "sessionId"
       (own_props (heap w'') (context (ser_contextData (serializer c))))
     = Some sessionId
  /\ serializer this' = serializer this.
Proof.
  intros this' w' c w''.
  destruct (child_fields this' suffix w') as (_ & _ & _ & _ & _ & Hser & _).
  fold c in Hser.
  destruct (setSessionId_context this sessionId w) as (Hctx & Hlen & Hprops).
  fold this' in Hctx, Hprops. fold w' in Hlen, Hprops.
  destruct (child_store this' suffix w') as [literal Hstore]. fold w'' in Hstore.
  split; [rewrite Hser; reflexivity|]. split.
  - rewrite Hser; simpl. rewrite Hctx in *. simpl in *.
    rewrite Hstore, lookup_app_l by exact Hlen.
    rewrite Hprops, lookup_set_prop, String.eqb_refl. reflexivity.
  - unfold this'. rewrite setSessionId_unfold. reflexivity.
Qed.

(** X14: [setSessionId] on a context whose properties have distinct names:
    without a [sessionId] the new context is the old properties followed by
    [sessionId]; with one, its value is replaced where it stands; the other
    properties keep their values; a context without properties gives the
    context [{ sessionId }]. *)
Theorem setSessionId_merges_context this sessionId w :
  in_heap (heap w) (context (contextData this)) = true ->
  NoDup (map fst (own_props (heap w) (context (contextData this)))) ->
  let old := own_props (heap w) (context (contextData this)) in
  let new :=
    own_props (heap (snd (setSessionId this sessionId w)))
      (context (contextData (fst (setSessionId this sessionId w)))) in
  (lookup_prop "sessionId" old = None -> new = old ++ [("sessionId", sessionId)])
  /\ (lookup_prop "sessionId" old <> None ->
      new = set_prop "sessionId" sessionId old /\ map fst new = map fst old)
  /\ (forall k, k <> "sessionId" -> lookup_prop k new = lookup_prop k old)
  /\ (old = [] -> new = [("sessionId", sessionId)]).
Proof.
  intros Hin Hnd old new.
  assert (new = set_prop "sessionId" sessionId old) as Hnew.
  { unfold new. destruct (setSessionId_context this sessionId w) as (_ & _ & ->).
    rewrite own_props_session_store by exact Hin. fold old.
    rewrite (assign_copy old []) by exact Hnd. reflexivity. }
  split; [|split; [|split]].
  - intros Hnone. rewrite Hnew. apply set_prop_absent, Hnone.
  - intros Hsome. rewrite Hnew. split; [reflexivity|].
    apply set_prop_present, Hsome.
  - intros k Hk. rewrite Hnew, lookup_set_prop.
    apply String.eqb_neq in Hk. rewrite Hk. reflexivity.
  - intros Hempty. rewrite Hnew, Hempty. reflexivity.
Qed.

(** X15: after two calls of [setSessionId] the context is the context
    after the first with the second identifier in the place of the first:
    the last identifier wins, no property is added, and the same
    identifier twice gives the same properties as once. *)
Theorem setSessionId_twice this a b w :
  let this1 := fst (setSessionId this a w) in
  let w1 := snd (setSessionId this a w) in
  let this2 := fst (setSessionId this1 b w1) in
  let w2 := snd (setSessionId this1 b w1) in
  let props1 := own_props (heap w1) (context (contextData this1)) in
  let props2 := own_props (heap w2) (context (contextData this2)) in
  props2 = set_prop "sessionId" b props1
  /\ lookup_prop "sessionId" props2 = Some b
  /\ map fst props2 = map fst props1
  /\ (a = b -> props2 = props1)
  /\ context (contextData this2) <> context (contextData this1).
Proof.
  intros this1 w1 this2 w2 props1 props2.
  destruct (setSessionId_context this a w) as (Hctx1 & Hlen1 & Hprops1).
  fold this1 in Hctx1, Hprops1. fold w1 in Hlen1, Hprops1. fold props1 in Hprops1.
  destruct (setSessionId_context this1 b w1) as (Hctx2 & _ & Hprops2).
  fold this2 in Hctx2, Hprops2. fold w2 in Hprops2. fold props2 in Hprops2.
  assert (props1 = own_props (heap w1) (context (contextData this1))) as Hdef
    by reflexivity.
  clearbody props2 props1 w2 this2 w1 this1.
  assert (lookup_prop "sessionId" props1 = Some a) as Hsid.
  { rewrite Hprops1, lookup_set_prop, String.eqb_refl. reflexivity. }
  assert (NoDup (map fst props1)) as Hnd.
  { rewrite Hprops1. apply set_prop_keys_distinct, assign_keys_distinct. constructor. }
  assert (props2 = set_prop "sessionId" b props1) as Hnew.
  { rewrite Hprops2.
    rewrite own_props_session_store
      by (rewrite Hctx1; simpl; apply Nat.ltb_lt, Hlen1).
    rewrite <- Hdef. rewrite (assign_copy props1 []) by exact Hnd. reflexivity. }
  split; [exact Hnew|]. split; [|split; [|split]].
  - rewrite Hnew, lookup_set_prop, String.eqb_refl. reflexivity.
  - rewrite Hnew. apply set_prop_present. congruence.
  - intros <-. rewrite Hnew. apply set_prop_same, Hsid.
  - rewrite Hctx1, Hctx2. intros [= Heq]. lia.
Qed.

(** X16: in every logger the class makes, by the constructor, as a child,
    or after [setSessionId], [log] is [info] and the serializer has the
    logger's namespace, limit and application name. *)
Theorem made_logger_invariant this :
  made this ->
  log this = info_method
  /\ ser_namespace (serializer this) = namespace this
  /\ ser_logLimit (serializer this) = logLimit this
  /\ name (ser_contextData (serializer this)) = name (contextData this).
Proof.
  induction 1 as [w options extraParameters | this suffix w _ _
                 | this sessionId w _ IH].
  - repeat split.
  - destruct (child_fields this suffix w) as (_ & _ & _ & _ & _ & Hser & Hlog & _).
    split; [exact Hlog|]. rewrite Hser. unfold createChildLogger, new_object, alloc.
    repeat split.
  - rewrite setSessionId_unfold. exact IH.
Qed.

End LifecycleProperties.

Lemma setSessionId_merges_context_witness :
  let old := [("api", VStr "orders")] in
  let new :=
    own_props
      (heap (snd (setSessionId EdgeExamples.context_logger (VStr "s-1")
                    EdgeExamples.context_world)))
      (context (contextData
                  (fst (setSessionId EdgeExamples.context_logger (VStr "s-1")
                          EdgeExamples.context_world)))) in
  (lookup_prop "sessionId" old = None -> new = old ++ [("sessionId", VStr "s-1")])
  /\ (lookup_prop "sessionId" old <> None ->
      new = set_prop "sessionId" (VStr "s-1") old /\ map fst new = map fst old)
  /\ (forall k, k <> "sessionId" -> lookup_prop k new = lookup_prop k old)
  /\ (old = [] -> new = [("sessionId", VStr "s-1")]).
Proof.
  refine (setSessionId_merges_context EdgeExamples.context_logger (VStr "s-1")
            EdgeExamples.context_world eq_refl _).
  simpl. apply NoDup_singleton.
Defined.

Lemma made_logger_invariant_witness :
  let this :=
    fst (setSessionId
           (fst (createChildLogger (M := Example.example_modules)
                   Example.scenario_logger (VStr "pool") Example.scenario_world))
           (VStr "s-1") Example.scenario_world) in
  log this = info_method
  /\ ser_namespace (serializer this) = namespace this
  /\ ser_logLimit (serializer this) = logLimit this
  /\ name (ser_contextData (serializer this)) = name (contextData this).
Proof.
  exact (made_logger_invariant (M := Example.example_modules) _
           (made_session _ _ _ (made_child _ _ _ (made_new _ _ _)))).
Defined.

Section ChildEnvironment.

Context {M : Modules}.

(** X17: a child does not take the parent's [logFormat], [format] or
    application name: its [logFormat] is [undefined], and its [format] and
    name are read from the environment when the child is made. *)
Theorem child_reads_environment_anew this suffix w :
  let c := fst (createChildLogger this suffix w) in
  logFormat c = VUndefined
  /\ (format c = prettyPrint_fn <->
      exists s, LOGS_PRETTY_PRINT (env w) = Some s /\ s <> "")
  /\ name (contextData c) = getenv (APP_NAME (env w))
  /\ name (ser_contextData (serializer c)) = getenv (APP_NAME (env w))
  /\ env (snd (createChildLogger this suffix w)) = env w.
Proof.
  intros c.
  destruct (child_fields this suffix w) as (_ & _ & _ & _ & _ & Hser & _ & Hfmt).
  fold c in Hser, Hfmt.
  split; [exact Hfmt|]. split; [|split; [|split]].
  - rewrite <- truthy_getenv. unfold c, createChildLogger, new_object, alloc; simpl.
    destruct (truthy (getenv (LOGS_PRETTY_PRINT (env w)))); split; congruence.
  - reflexivity.
  - rewrite Hser. reflexivity.
  - reflexivity.
Qed.

End ChildEnvironment.

(** The child of a child of the scenario's logger. *)
Example scenario_grandchild :
  namespace
    (fst (createChildLogger (M := Example.example_modules)
            (fst (createChildLogger (M := Example.example_modules)
                    Example.scenario_logger (VStr "pool") Example.scenario_world))
            (VStr "reader") Example.scenario_world))
  = VStr "db:pool:reader".
Proof. reflexivity. Qed.
